(** * jack_large_number_ports: a JACK client with 1024 input and 1024 output ports

    A shallow embedding of [jack_large_number_ports.cpp].  The program talks
    to an external JACK server; the server is kept abstract (a type class of
    state transformers), the program's own globals and the sample memory live
    in a [World] record, and every call that leaves the process (a JACK call,
    a write to stdout or stderr, the sleep, [exit]) is logged in a trace
    together with what the server answered. *)

From Stdlib Require Import ZArith NArith String Ascii List Lia.
From Stdlib Require Import HexadecimalString HexadecimalN.
From stdpp Require Import base option list gmap strings pretty.

Local Open Scope N_scope.

(** ** Handles, samples, and the constants of <jack/jack.h> *)

(** Non-null [jack_client_t*] and [jack_port_t*] values; a pointer that may be
    NULL is an [option]. *)
Definition Client := N.
Definition Port := N.

(** The address of a port buffer, as [jack_port_get_buffer] hands it out. *)
Definition Addr := N.

(** A [jack_default_audio_sample_t] is a 32-bit float.  The client only moves
    samples around, so a sample is represented by its bit pattern. *)
Definition jack_default_audio_sample_t := N.

(** [jack_options_t]: the program only ever passes [JackNullOption]. *)
Inductive jack_options_t := JackNullOption.

#[global] Instance jack_options_t_eq_dec : EqDecision jack_options_t.
Proof. solve_decision. Defined.

(** [enum JackPortFlags]: the two flags the program passes when registering. *)
Inductive JackPortFlags := JackPortIsInput | JackPortIsOutput.

#[global] Instance JackPortFlags_eq_dec : EqDecision JackPortFlags.
Proof. solve_decision. Defined.

(** The header's constants used by [main].  The header is not part of the
    repository, so its values are a parameter of the development. *)
Record JackHeader := {
  JackNameNotUnique : N;              (* jack_status_t bit *)
  JackServerStarted : N;              (* jack_status_t bit *)
  JackServerFailed : N;               (* jack_status_t bit *)
  JACK_DEFAULT_AUDIO_TYPE : string
}.

(** ** The server, seen from the client

    Each function is the server's side of one entry point of the JACK API: it
    reads the server's state and returns its answer with the new state.
    [srv_client_open] answers both the handle and the [status]
    out-parameter. *)
Class JackServer (Srv : Type) := {
  srv_client_open :
    string -> jack_options_t -> option string -> Srv -> (option Client * N) * Srv;
  srv_get_client_name : option Client -> Srv -> string * Srv;
  srv_set_process_callback : option Client -> Srv -> Srv;
  srv_on_shutdown : option Client -> Srv -> Srv;
  srv_get_sample_rate : option Client -> Srv -> N * Srv;
  srv_port_register :
    option Client -> string -> string -> JackPortFlags -> N -> Srv -> option Port * Srv;
  srv_activate : option Client -> Srv -> Z * Srv;
  srv_deactivate : option Client -> Srv -> Srv;
  srv_client_close : option Client -> Srv -> Srv
}.

(** ** What the process does to the outside world *)
Inductive Event :=
| Ev_client_open (name : string) (opts : jack_options_t) (server_name : option string)
                 (res : option Client) (status : N)
| Ev_get_client_name (c : option Client) (res : string)
| Ev_set_process_callback (c : option Client)
| Ev_on_shutdown (c : option Client)
| Ev_get_sample_rate (c : option Client) (res : N)
| Ev_port_register (c : option Client) (name type : string) (flags : JackPortFlags)
                   (buffer_size : N) (res : option Port)
| Ev_activate (c : option Client) (res : Z)
| Ev_sleep_for (seconds : N)
| Ev_deactivate (c : option Client)
| Ev_client_close (c : option Client)
| Ev_stdout (s : string)
| Ev_stderr (s : string)
| Ev_exit (code : Z).

#[global] Instance Event_eq_dec : EqDecision Event.
Proof. solve_decision. Defined.

(** ** Text formatting *)

Definition endl : string := String "010"%char EmptyString.

(** [ostream << uint32_t] and [printf("%" PRIu32)]: decimal, no padding. *)
Definition fmt_u32 (n : N) : string := pretty n.

(** [printf("%2.0x")]: lower-case hexadecimal with precision 0 (the value 0
    prints no digit at all), right-aligned in a field of width 2. *)
Definition fmt_2_0x (n : N) : string :=
  let digits :=
    if n =? 0 then EmptyString
    else NilEmpty.string_of_uint (N.to_hex_uint n) in
  match String.length digits with
  | O => "  " +:+ digits
  | S O => " " +:+ digits
  | _ => digits
  end.

(** ** The program state and its monad *)
Section Program.

Context {Srv : Type} `{!JackServer Srv}.
Variable hdr : JackHeader.

(** The three globals of the translation unit, the server, the sample memory
    the server shares with the client, and the trace. *)
Record World := mkWorld {
  jack_client : option Client;
  input_ports : list Port;
  output_ports : list Port;
  srv : Srv;
  port_buffer : gmap Port Addr;
  buffers : gmap Addr (list jack_default_audio_sample_t);
  trace : list Event
}.

(** How a computation ends: it returns, it calls [exit], it runs into
    undefined behaviour (a vector indexed out of range, a buffer accessed out
    of bounds or through NULL), or the model's loop fuel is used up. *)
Inductive Outcome (A : Type) :=
| Returned (a : A) (w : World)
| Exited (code : Z) (w : World)
| Undefined
| OutOfFuel.
Arguments Returned {A} a w.
Arguments Exited {A} code w.
Arguments Undefined {A}.
Arguments OutOfFuel {A}.

Definition M (A : Type) : Type := World -> Outcome A.

Definition ret {A} (a : A) : M A := fun w => Returned a w.

Definition bind {A B} (m : M A) (k : A -> M B) : M B :=
  fun w =>
    match m w with
    | Returned a w' => k a w'
    | Exited code w' => Exited code w'
    | Undefined => Undefined
    | OutOfFuel => OutOfFuel
    end.

Notation "x <- m ;; k" := (bind m (fun x => k))
  (at level 100, m at next level, k at level 200, right associativity).
Notation "m ;;; k" := (bind m (fun _ => k))
  (at level 100, k at level 200, right associativity).

Definition undefined {A} : M A := fun _ => Undefined.

Definition set_srv (s : Srv) (w : World) : World :=
  mkWorld (jack_client w) (input_ports w) (output_ports w) s
          (port_buffer w) (buffers w) (trace w).

Definition log (e : Event) (w : World) : World :=
  mkWorld (jack_client w) (input_ports w) (output_ports w) (srv w)
          (port_buffer w) (buffers w) (trace w ++ [e]).

Definition emit (e : Event) : M unit := fun w => Returned tt (log e w).

(** [exit(code)] ends the process where it stands. *)
Definition exit {A} (code : Z) : M A := fun w => Exited code (log (Ev_exit code) w).

Definition print_stdout (s : string) : M unit := emit (Ev_stdout s).
Definition print_stderr (s : string) : M unit := emit (Ev_stderr s).
Definition sleep_for (seconds : N) : M unit := emit (Ev_sleep_for seconds).

(** Reads and writes of the globals. *)
Definition get_jack_client : M (option Client) := fun w => Returned (jack_client w) w.

Definition set_jack_client (c : option Client) : M unit :=
  fun w => Returned tt (mkWorld c (input_ports w) (output_ports w) (srv w)
                                (port_buffer w) (buffers w) (trace w)).

Definition input_ports_push_back (p : Port) : M unit :=
  fun w => Returned tt (mkWorld (jack_client w) (input_ports w ++ [p]) (output_ports w)
                                (srv w) (port_buffer w) (buffers w) (trace w)).

Definition output_ports_push_back (p : Port) : M unit :=
  fun w => Returned tt (mkWorld (jack_client w) (input_ports w) (output_ports w ++ [p])
                                (srv w) (port_buffer w) (buffers w) (trace w)).

(** [v[i]] on a [std::vector]: out of range is undefined behaviour. *)
Definition input_ports_at (i : N) : M Port :=
  fun w => match input_ports w !! N.to_nat i with
           | Some p => Returned p w
           | None => Undefined
           end.

Definition output_ports_at (i : N) : M Port :=
  fun w => match output_ports w !! N.to_nat i with
           | Some p => Returned p w
           | None => Undefined
           end.

(** ** The JACK calls, as the process sees them *)

Definition jack_client_open (name : string) (opts : jack_options_t)
    (server_name : option string) : M (option Client * N) :=
  fun w =>
    let '(r, s) := srv_client_open name opts server_name (srv w) in
    Returned r (log (Ev_client_open name opts server_name r.1 r.2) (set_srv s w)).

Definition jack_get_client_name (c : option Client) : M string :=
  fun w =>
    let '(r, s) := srv_get_client_name c (srv w) in
    Returned r (log (Ev_get_client_name c r) (set_srv s w)).

Definition jack_set_process_callback (c : option Client) : M unit :=
  fun w =>
    Returned tt (log (Ev_set_process_callback c) (set_srv (srv_set_process_callback c (srv w)) w)).

Definition jack_on_shutdown (c : option Client) : M unit :=
  fun w => Returned tt (log (Ev_on_shutdown c) (set_srv (srv_on_shutdown c (srv w)) w)).

Definition jack_get_sample_rate (c : option Client) : M N :=
  fun w =>
    let '(r, s) := srv_get_sample_rate c (srv w) in
    Returned r (log (Ev_get_sample_rate c r) (set_srv s w)).

Definition jack_port_register (c : option Client) (name type : string)
    (flags : JackPortFlags) (buffer_size : N) : M (option Port) :=
  fun w =>
    let '(r, s) := srv_port_register c name type flags buffer_size (srv w) in
    Returned r (log (Ev_port_register c name type flags buffer_size r) (set_srv s w)).

Definition jack_activate (c : option Client) : M Z :=
  fun w =>
    let '(r, s) := srv_activate c (srv w) in
    Returned r (log (Ev_activate c r) (set_srv s w)).

Definition jack_deactivate (c : option Client) : M unit :=
  fun w => Returned tt (log (Ev_deactivate c) (set_srv (srv_deactivate c (srv w)) w)).

Definition jack_client_close (c : option Client) : M unit :=
  fun w => Returned tt (log (Ev_client_close c) (set_srv (srv_client_close c (srv w)) w)).

(** [jack_port_get_buffer] only looks the buffer up; NULL when there is none. *)
Definition jack_port_get_buffer (p : Port) (nframes : N) : M (option Addr) :=
  fun w => Returned (port_buffer w !! p) w.

(** ** Sample memory *)

(** [buf[k]] as an rvalue. *)
Definition load (buf : option Addr) (k : nat) : M jack_default_audio_sample_t :=
  fun w =>
    match buf with
    | None => Undefined
    | Some a =>
        match buffers w !! a ≫= (λ b, b !! k) with
        | Some v => Returned v w
        | None => Undefined
        end
    end.

(** [buf[k] = v]. *)
Definition store (buf : option Addr) (k : nat) (v : jack_default_audio_sample_t) : M unit :=
  fun w =>
    match buf with
    | None => Undefined
    | Some a =>
        match buffers w !! a with
        | Some b =>
            if decide (k < length b)%nat
            then Returned tt (mkWorld (jack_client w) (input_ports w) (output_ports w) (srv w)
                                      (port_buffer w) (<[a := <[k := v]> b]> (buffers w))
                                      (trace w))
            else Undefined
        | None => Undefined
        end
    end.

(** [std::copy(&src[first], &src[last], &dst[d_first])]: one assignment per
    element, front to back. *)
Fixpoint copy_loop (count : nat) (src : option Addr) (i : nat)
    (dst : option Addr) (j : nat) : M unit :=
  match count with
  | O => ret tt
  | S count' =>
      v <- load src i ;;
      store dst j v ;;;
      copy_loop count' src (S i) dst (S j)
  end.

Definition std_copy (src : option Addr) (first last : N)
    (dst : option Addr) (d_first : N) : M unit :=
  copy_loop (N.to_nat (last - first)) src (N.to_nat first) dst (N.to_nat d_first).

(** ** Loops over a [uint32_t] counter *)

Definition u32_succ (i : N) : N := (i + 1) mod 2 ^ 32.

(** [for (uint32_t i = start; i < bound; ++i) body(i)].  The recursion is on
    [fuel]; [for_u32_unroll] below shows that [bound] units of fuel are
    enough from [start = 0]. *)
Fixpoint for_u32 (fuel : nat) (i bound : N) (body : N -> M unit) : M unit :=
  if i <? bound then
    match fuel with
    | O => fun _ => OutOfFuel
    | S fuel' => body i ;;; for_u32 fuel' (u32_succ i) bound body
    end
  else ret tt.

(** ** The translation unit *)

Definition num_ports : N := 1024.

(** The body of the loop of [process], lines 48-50. *)
Definition process_port (nframes : N) (port : N) : M unit :=
  p_in <- input_ports_at port ;;
  in_ <- jack_port_get_buffer p_in nframes ;;
  p_out <- output_ports_at port ;;
  out <- jack_port_get_buffer p_out nframes ;;
  std_copy in_ 0 nframes out 0.

(** [int process (jack_nframes_t nframes, void *arg)] *)
Definition process (nframes : N) (arg : N) : M Z :=
  for_u32 (N.to_nat num_ports) 0 num_ports (process_port nframes) ;;;
  ret 0%Z.

(** [void jack_shutdown (void *arg)] *)
Definition jack_shutdown (arg : N) : M unit := exit 1.

(** The body of the first registration loop of [main], lines 117-130. *)
Definition register_input_port (i : N) : M unit :=
  let port_name := "input-" +:+ fmt_u32 i in
  jc <- get_jack_client ;;
  tmp_port <- jack_port_register jc port_name (JACK_DEFAULT_AUDIO_TYPE hdr)
                                 JackPortIsInput 0 ;;
  match tmp_port with
  | None =>
      print_stderr ("Failed to register input port " +:+ fmt_u32 i +:+ endl) ;;;
      exit 1
  | Some p => input_ports_push_back p
  end.

(** The body of the second registration loop of [main], lines 135-148. *)
Definition register_output_port (o : N) : M unit :=
  let port_name := "output-" +:+ fmt_u32 o in
  jc <- get_jack_client ;;
  tmp_port <- jack_port_register jc port_name (JACK_DEFAULT_AUDIO_TYPE hdr)
                                 JackPortIsOutput 0 ;;
  match tmp_port with
  | None =>
      print_stderr ("Failed to register output port " +:+ fmt_u32 o +:+ endl) ;;;
      exit 1
  | Some p => output_ports_push_back p
  end.

(** The two registration loops of [main], lines 115-149. *)
Definition register_input_ports : M unit :=
  for_u32 (N.to_nat num_ports) 0 num_ports register_input_port.

Definition register_output_ports : M unit :=
  for_u32 (N.to_nat num_ports) 0 num_ports register_output_port.

Definition test_bits (status mask : N) : bool := negb (N.land status mask =? 0).

(** Lines 68-112: open the client, install the callbacks, print the rate. *)
Definition open_client : M unit :=
  let client_name := "jack_large_number_ports" in
  let server_name := None in
  let options := JackNullOption in
  r <- jack_client_open client_name options server_name ;;
  let status := r.2 in
  set_jack_client r.1 ;;;
  jc <- get_jack_client ;;
  match jc with
  | None =>
      print_stderr ("jack_client_open() failed, status = 0x" +:+ fmt_2_0x status +:+ endl) ;;;
      (if test_bits status (JackServerFailed hdr)
       then print_stderr ("Unable to connect to JACK server" +:+ endl)
       else ret tt) ;;;
      exit 1
  | Some _ => ret tt
  end ;;;
  (if test_bits status (JackServerStarted hdr)
   then print_stderr ("JACK server started" +:+ endl)
   else ret tt) ;;;
  (if test_bits status (JackNameNotUnique hdr)
   then jc <- get_jack_client ;;
        client_name <- jack_get_client_name jc ;;
        print_stderr ("unique name `" +:+ client_name +:+ "' assigned" +:+ endl)
   else ret tt) ;;;
  jc <- get_jack_client ;;
  jack_set_process_callback jc ;;;
  jc <- get_jack_client ;;
  jack_on_shutdown jc ;;;
  jc <- get_jack_client ;;
  rate <- jack_get_sample_rate jc ;;
  print_stdout ("engine sample rate: " +:+ fmt_u32 rate +:+ endl).

(** Lines 155-209: activate, wait, shut down. *)
Definition run_client : M Z :=
  jc <- get_jack_client ;;
  r <- jack_activate jc ;;
  (if decide (r = 0%Z) then ret tt
   else print_stderr "cannot activate client" ;;; exit 1) ;;;
  sleep_for 60 ;;;
  print_stdout ("Starting close" +:+ endl) ;;;
  jc <- get_jack_client ;;
  jack_deactivate jc ;;;
  jc <- get_jack_client ;;
  jack_client_close jc ;;;
  exit 0.

(** Everything before [jack_activate]. *)
Definition setup : M unit :=
  open_client ;;;
  register_input_ports ;;;
  register_output_ports.

(** [int main (int argc, char *argv[])] *)
Definition main (argc : Z) (argv : list string) : M Z :=
  setup ;;;
  run_client.

(** The state the process starts in: [jack_client] is NULL and both vectors
    are empty; the server and the memory are whatever they are. *)
Definition initial_world (s : Srv) (pb : gmap Port Addr)
    (bufs : gmap Addr (list jack_default_audio_sample_t)) : World :=
  mkWorld None [] [] s pb bufs [].

End Program.

Arguments World Srv : clear implicits.
Arguments Outcome Srv A : clear implicits.
Arguments M Srv A : clear implicits.
Arguments Returned {Srv A} a w.
Arguments Exited {Srv A} code w.
Arguments Undefined {Srv A}.
Arguments OutOfFuel {Srv A}.

(** ** A concrete server to run the program against

    The simulated server hands out port handles 1, 2, 3, ... and can be told
    to refuse the connection, to refuse the registration call number
    [sim_fail_register], or to refuse activation. *)
Module Sim.

Record State := mkState {
  sim_open_ok : bool;
  sim_status : N;
  sim_fail_register : option N;
  sim_activate : Z;
  sim_registered : N
}.

#[global] Instance server : JackServer State := {
  srv_client_open _ _ _ s :=
    ((if sim_open_ok s then Some 7 else None, sim_status s), s);
  srv_get_client_name _ s := ("jack_large_number_ports-01"%string, s);
  srv_set_process_callback _ s := s;
  srv_on_shutdown _ s := s;
  srv_get_sample_rate _ s := (48000, s);
  srv_port_register _ _ _ _ _ s :=
    if decide (sim_fail_register s = Some (sim_registered s))
    then (None, s)
    else (Some (sim_registered s + 1),
          mkState (sim_open_ok s) (sim_status s) (sim_fail_register s)
                  (sim_activate s) (sim_registered s + 1));
  srv_activate _ s := (sim_activate s, s);
  srv_deactivate _ s := s;
  srv_client_close _ s := s
}.

(** The values of <jack/types.h>. *)
Definition hdr : JackHeader := {|
  JackNameNotUnique := 4;
  JackServerStarted := 8;
  JackServerFailed := 16;
  JACK_DEFAULT_AUDIO_TYPE := "32 bit float mono audio"
|}.

Definition good : State := mkState true 0 None 0 0.
Definition no_server : State := mkState false 17 None 0 0.
Definition port_limit (k : N) : State := mkState true 0 (Some k) 0 0.
Definition no_activation : State := mkState true 0 None (-1) 0.

Definition start (s : State) : World State := initial_world s ∅ ∅.

(** The sample memory of a processing cycle: ports 1..1024 are the inputs,
    1025..2048 the outputs, and port [p] has a buffer of four samples at
    address [4096 + p]. *)
Definition ins : list Port := N.of_nat <$> seq 1 1024.
Definition outs : list Port := N.of_nat <$> seq 1025 1024.

Definition port_map : gmap Port Addr :=
  list_to_map ((λ p, (p, 4096 + p)) <$> (ins ++ outs)).

Definition memory : gmap Addr (list jack_default_audio_sample_t) :=
  list_to_map ((λ p, (4096 + p, [p; p + 10000; p + 20000; p + 30000])) <$> (ins ++ outs)).

(** Where a run against server [s] stands after [setup], and where it ends. *)
Definition after_setup (s : State) : World State :=
  match setup hdr (start s) with
  | Returned _ w => w
  | _ => start s
  end.

Definition final (s : State) : World State :=
  match main hdr 0 [] (start s) with
  | Returned _ w | Exited _ w => w
  | _ => start s
  end.

(** A processing cycle of the client that [setup] built. *)
Definition cycle : World State :=
  let w := after_setup good in
  mkWorld (jack_client w) (input_ports w) (output_ports w) (srv w)
          port_map memory (trace w).

(** Cycles in which ports share a buffer.  In [shared], input port 0 reads
    the buffer of output port 1 (address 5122) and input port 3 that of
    output port 2 (address 5123); in [twin], output ports 0 and 1 both write
    to the buffer at address 5121.  Everything else is as in [cycle]. *)
Definition shared_map : gmap Port Addr := <[1 := 5122]> (<[4 := 5123]> port_map).

Definition shared : World State :=
  let w := after_setup good in
  mkWorld (jack_client w) (input_ports w) (output_ports w) (srv w)
          shared_map memory (trace w).

Definition after_shared : World State :=
  match process 3 0 shared with
  | Returned _ w => w
  | _ => shared
  end.

Definition twin_map : gmap Port Addr := <[1026 := 5121]> port_map.

Definition twin : World State :=
  let w := after_setup good in
  mkWorld (jack_client w) (input_ports w) (output_ports w) (srv w)
          twin_map memory (trace w).

Definition after_twin : World State :=
  match process 3 0 twin with
  | Returned _ w => w
  | _ => twin
  end.

End Sim.

(** ** Vocabulary for the statements *)
Section Vocabulary.

Context {Srv : Type}.
Implicit Types (w : World Srv) (i : N) (a : Addr).

(** The loop [for (i = 0; i < bound; ++i)] without its counter: the body run
    on each index of a list in turn. *)
Fixpoint for_each (l : list N) (body : N -> M Srv unit) : M Srv unit :=
  match l with
  | [] => fun w => Returned tt w
  | i :: l' =>
      fun w =>
        match body i w with
        | Returned _ w' => for_each l' body w'
        | Exited code w' => Exited code w'
        | Undefined => Undefined
        | OutOfFuel => OutOfFuel
        end
  end.

Definition indices (n : nat) : list N := N.of_nat <$> seq 0 n.

(** The buffer behind input port [i] and behind output port [i]. *)
Definition input_addr w i : option Addr :=
  input_ports w !! N.to_nat i ≫= λ p, port_buffer w !! p.

Definition output_addr w i : option Addr :=
  output_ports w !! N.to_nat i ≫= λ p, port_buffer w !! p.

Definition input_buffer w i : option (list jack_default_audio_sample_t) :=
  input_addr w i ≫= λ a, buffers w !! a.

Definition output_buffer w i : option (list jack_default_audio_sample_t) :=
  output_addr w i ≫= λ a, buffers w !! a.





(** Two worlds that differ in the sample memory only. *)
Definition same_but_buffers w w' : Prop :=
  jack_client w' = jack_client w ∧ input_ports w' = input_ports w
  ∧ output_ports w' = output_ports w ∧ srv w' = srv w
  ∧ port_buffer w' = port_buffer w ∧ trace w' = trace w.



(** [m] touches nothing but the sample memory, however it ends. *)
Definition memory_only {A} (m : M Srv A) : Prop :=
  forall w, match m w with
            | Returned _ w' | Exited _ w' => same_but_buffers w w'
            | _ => True
            end.

(** The events of [main], by kind. *)
Definition is_register (e : Event) : bool :=
  match e with Ev_port_register _ _ _ _ _ _ => true | _ => false end.

Definition is_activate (e : Event) : bool :=
  match e with Ev_activate _ _ => true | _ => false end.

Definition is_cleanup (e : Event) : bool :=
  match e with Ev_deactivate _ | Ev_client_close _ => true | _ => false end.

End Vocabulary.

(** ** Vocabulary for the runs of [main] *)
Section RunVocabulary.

Context {Srv : Type} `{!JackServer Srv}.
Variable hdr : JackHeader.
Implicit Types (w : World Srv) (e : Event) (flags : JackPortFlags).

Definition port_prefix flags : string :=
  match flags with JackPortIsInput => "input-" | JackPortIsOutput => "output-" end.

(** The registration call for the port of index [i] in direction [flags],
    with the server's answer [res]. *)
Definition registration (c : option Client) flags (i : N) (res : option Port) : Event :=
  Ev_port_register c (port_prefix flags +:+ fmt_u32 i) (JACK_DEFAULT_AUDIO_TYPE hdr)
                   flags 0 res.

(** Successful registrations of ports 0, 1, ... in one direction. *)
Definition registrations (c : option Client) flags (ps : list Port) : list Event :=
  imap (λ k p, registration c flags (N.of_nat k) (Some p)) ps.

Definition registration_failed e : bool :=
  match e with Ev_port_register _ _ _ _ _ None => true | _ => false end.

(** Events of lines 74-112 when the connection is opened. *)
Definition is_prologue e : bool :=
  match e with
  | Ev_client_open _ _ _ (Some _) _ | Ev_get_client_name _ _
  | Ev_set_process_callback _ | Ev_on_shutdown _ | Ev_get_sample_rate _ _
  | Ev_stdout _ | Ev_stderr _ => true
  | _ => false
  end.

(** What the process does when [jack_client_open] answers NULL. *)
Definition open_failed_trace (status : N) : list Event :=
  [Ev_client_open "jack_large_number_ports" JackNullOption None None status;
   Ev_stderr ("jack_client_open() failed, status = 0x" +:+ fmt_2_0x status +:+ endl)]
  ++ (if test_bits status (JackServerFailed hdr)
      then [Ev_stderr ("Unable to connect to JACK server" +:+ endl)] else [])
  ++ [Ev_exit 1].

Definition ports_of flags w : list Port :=
  match flags with JackPortIsInput => input_ports w | JackPortIsOutput => output_ports w end.

Definition other flags : JackPortFlags :=
  match flags with JackPortIsInput => JackPortIsOutput | JackPortIsOutput => JackPortIsInput end.

Definition push_port flags (p : Port) w : World Srv :=
  match flags with
  | JackPortIsInput =>
      mkWorld (jack_client w) (input_ports w ++ [p]) (output_ports w) (srv w)
              (port_buffer w) (buffers w) (trace w)
  | JackPortIsOutput =>
      mkWorld (jack_client w) (input_ports w) (output_ports w ++ [p]) (srv w)
              (port_buffer w) (buffers w) (trace w)
  end.

Definition fail_message flags (i : N) : string :=
  match flags with
  | JackPortIsInput => "Failed to register input port " +:+ fmt_u32 i +:+ endl
  | JackPortIsOutput => "Failed to register output port " +:+ fmt_u32 i +:+ endl
  end.

(** One round of either registration loop, as a function of the world. *)
Definition register_round flags (i : N) w : Outcome Srv unit :=
  let '(r, s) :=
    srv_port_register (jack_client w) (port_prefix flags +:+ fmt_u32 i)
                      (JACK_DEFAULT_AUDIO_TYPE hdr) flags 0 (srv w) in
  let w1 := log (registration (jack_client w) flags i r) (set_srv s w) in
  match r with
  | Some p => Returned tt (push_port flags p w1)
  | None => Exited 1 (log (Ev_exit 1) (log (Ev_stderr (fail_message flags i)) w1))
  end.

(** Two worlds with the same port-to-buffer map and the same sample memory. *)
Definition same_memory w w' : Prop :=
  port_buffer w' = port_buffer w /\ buffers w' = buffers w.

(** What follows a refused activation, and what follows a granted one. *)
Definition activation_failed_trace (c : option Client) (r : Z) : list Event :=
  [Ev_activate c r; Ev_stderr "cannot activate client"; Ev_exit 1].

Definition full_run_trace (c : option Client) : list Event :=
  [Ev_activate c 0; Ev_sleep_for 60; Ev_stdout ("Starting close" +:+ endl);
   Ev_deactivate c; Ev_client_close c; Ev_exit 0].

(** Two worlds with the same handle, the same vectors and the same memory. *)
Definition same_globals w w' : Prop :=
  jack_client w' = jack_client w /\ input_ports w' = input_ports w
  /\ output_ports w' = output_ports w /\ same_memory w w'.

(** How [setup] can end: the connection is refused, a registration is
    refused, or all 2048 ports are registered. *)
Inductive setup_outcome (w : World Srv) : Outcome Srv unit -> Prop :=
| setup_no_client w' s1 status :
    srv_client_open "jack_large_number_ports" JackNullOption None (srv w)
      = ((None, status), s1) ->
    jack_client w' = None -> input_ports w' = input_ports w ->
    output_ports w' = output_ports w -> same_memory w w' ->
    trace w' = trace w ++ open_failed_trace status ->
    setup_outcome w (Exited 1 w')
| setup_port_refused w' c pro ins outs flags :
    forallb is_prologue pro = true ->
    jack_client w' = Some c ->
    input_ports w' = input_ports w ++ ins ->
    output_ports w' = output_ports w ++ outs ->
    same_memory w w' ->
    (flags = JackPortIsInput /\ (length ins < N.to_nat num_ports)%nat /\ outs = []
     \/ flags = JackPortIsOutput /\ length ins = N.to_nat num_ports
        /\ (length outs < N.to_nat num_ports)%nat) ->
    trace w' = trace w ++ pro
      ++ (registrations (Some c) JackPortIsInput ins
          ++ registrations (Some c) JackPortIsOutput outs)
      ++ [registration (Some c) flags
            (N.of_nat (length (match flags with
                               | JackPortIsInput => ins
                               | JackPortIsOutput => outs
                               end))) None;
          Ev_stderr (fail_message flags
            (N.of_nat (length (match flags with
                               | JackPortIsInput => ins
                               | JackPortIsOutput => outs
                               end))));
          Ev_exit 1] ->
    setup_outcome w (Exited 1 w')
| setup_done w' c pro ins outs :
    forallb is_prologue pro = true ->
    jack_client w' = Some c ->
    input_ports w' = input_ports w ++ ins ->
    output_ports w' = output_ports w ++ outs ->
    same_memory w w' ->
    length ins = N.to_nat num_ports ->
    length outs = N.to_nat num_ports ->
    trace w' = trace w ++ pro
      ++ registrations (Some c) JackPortIsInput ins
      ++ registrations (Some c) JackPortIsOutput outs ->
    setup_outcome w (Returned tt w').

End RunVocabulary.

Arguments fmt_u32 : simpl never.
Arguments fmt_2_0x : simpl never.
Arguments test_bits : simpl never.

(** ** Vocabulary for the further properties *)
Section LayoutVoc.
Context {Srv : Type}.
Implicit Types (w : World Srv) (i : N) (a : Addr).

(** Two worlds that differ in the contents of the buffers only: the same
    globals, the same buffers at the same addresses, each of the same
    length. *)
Definition same_layout w w' : Prop :=
  same_but_buffers w w'
  /\ forall a, length <$> buffers w' !! a = length <$> buffers w !! a.

(** [m] never exits and never runs out of fuel, and when it returns it has
    changed the contents of buffers only. *)
Definition layout_only {A} (m : M Srv A) : Prop :=
  forall w, match m w with
            | Returned _ w' => same_layout w w'
            | Undefined => True
            | Exited _ _ | OutOfFuel => False
            end.

(** Both vectors have an entry at index [i], and both entries have a buffer
    of at least [nframes] samples. *)
Definition has_frames (nframes : N) w i : Prop :=
  exists bin bout, input_buffer w i = Some bin /\ output_buffer w i = Some bout
    /\ (N.to_nat nframes <= length bin)%nat /\ (N.to_nat nframes <= length bout)%nat.
End LayoutVoc.

Section ShapeVoc.
Context {Srv : Type} `{!JackServer Srv}.
Variable hdr : JackHeader.
Implicit Types (w : World Srv) (e : Event) (flags : JackPortFlags).

(** The events of lines 74-112 when the connection is opened with handle
    [c] and status [status]; [name] and [rate] are the server's answers to
    [jack_get_client_name] (asked only when the name was not unique) and to
    [jack_get_sample_rate]. *)
Definition prologue_trace (c : Client) (status : N) (name : string) (rate : N)
    : list Event :=
  [Ev_client_open "jack_large_number_ports" JackNullOption None (Some c) status]
  ++ (if test_bits status (JackServerStarted hdr)
      then [Ev_stderr ("JACK server started" +:+ endl)] else [])
  ++ (if test_bits status (JackNameNotUnique hdr)
      then [Ev_get_client_name (Some c) name;
            Ev_stderr ("unique name `" +:+ name +:+ "' assigned" +:+ endl)]
      else [])
  ++ [Ev_set_process_callback (Some c); Ev_on_shutdown (Some c);
      Ev_get_sample_rate (Some c) rate;
      Ev_stdout ("engine sample rate: " +:+ fmt_u32 rate +:+ endl)].

(** The registration calls of a run in which [ins] and [outs] were
    registered. *)
Definition registered_trace (c : Client) (ins outs : list Port) : list Event :=
  registrations hdr (Some c) JackPortIsInput ins
  ++ registrations hdr (Some c) JackPortIsOutput outs.

(** The refused registration that ends a run, after [ins] and [outs]. *)
Definition refusal_trace (c : Client) flags (ins outs : list Port) : list Event :=
  let i := N.of_nat (length (match flags with
                             | JackPortIsInput => ins
                             | JackPortIsOutput => outs
                             end)) in
  [registration hdr (Some c) flags i None; Ev_stderr (fail_message flags i); Ev_exit 1].

(** The four ways a run of [main] can go, with the whole trace of each. *)
Inductive main_run (w : World Srv) : Z -> World Srv -> Prop :=
| run_no_client w' status s1 :
    srv_client_open "jack_large_number_ports" JackNullOption None (srv w)
      = ((None, status), s1) ->
    jack_client w' = None ->
    input_ports w' = input_ports w -> output_ports w' = output_ports w ->
    trace w' = trace w ++ open_failed_trace hdr status ->
    main_run w 1 w'
| run_port_refused w' c status name rate ins outs flags :
    jack_client w' = Some c ->
    input_ports w' = input_ports w ++ ins ->
    output_ports w' = output_ports w ++ outs ->
    (flags = JackPortIsInput /\ (length ins < N.to_nat num_ports)%nat /\ outs = []
     \/ flags = JackPortIsOutput /\ length ins = N.to_nat num_ports
        /\ (length outs < N.to_nat num_ports)%nat) ->
    trace w' = trace w ++ prologue_trace c status name rate
      ++ registered_trace c ins outs ++ refusal_trace c flags ins outs ->
    main_run w 1 w'
| run_activation_refused w' c status name rate ins outs r :
    r ≠ 0%Z ->
    jack_client w' = Some c ->
    input_ports w' = input_ports w ++ ins ->
    output_ports w' = output_ports w ++ outs ->
    length ins = N.to_nat num_ports -> length outs = N.to_nat num_ports ->
    trace w' = trace w ++ prologue_trace c status name rate
      ++ registered_trace c ins outs ++ activation_failed_trace (Some c) r ->
    main_run w 1 w'
| run_full w' c status name rate ins outs :
    jack_client w' = Some c ->
    input_ports w' = input_ports w ++ ins ->
    output_ports w' = output_ports w ++ outs ->
    length ins = N.to_nat num_ports -> length outs = N.to_nat num_ports ->
    trace w' = trace w ++ prologue_trace c status name rate
      ++ registered_trace c ins outs ++ full_run_trace (Some c) ->
    main_run w 0 w'.
End ShapeVoc.

Section ReadVoc.
Implicit Types (e : Event) (flags : JackPortFlags).

(** The port name a registration call asks for. *)
Definition register_name e : option string :=
  match e with Ev_port_register _ name _ _ _ _ => Some name | _ => None end.

(** The handle a successful registration in direction [flags] returned. *)
Definition registered_port flags e : option Port :=
  match e with
  | Ev_port_register _ _ _ f _ (Some p) => if decide (f = flags) then Some p else None
  | _ => None
  end.

(** The client handle an event carries: the answer of [jack_client_open],
    the first argument of every other JACK call. *)
Definition client_arg e : option (option Client) :=
  match e with
  | Ev_client_open _ _ _ res _ => Some res
  | Ev_get_client_name c _ | Ev_set_process_callback c | Ev_on_shutdown c
  | Ev_get_sample_rate c _ | Ev_port_register c _ _ _ _ _ | Ev_activate c _
  | Ev_deactivate c | Ev_client_close c => Some c
  | Ev_sleep_for _ | Ev_stdout _ | Ev_stderr _ | Ev_exit _ => None
  end.

Definition is_output_registration e : bool :=
  match e with Ev_port_register _ _ _ JackPortIsOutput _ _ => true | _ => false end.

Definition is_input_registered e : bool :=
  match e with Ev_port_register _ _ _ JackPortIsInput _ (Some _) => true | _ => false end.

(** The names of the first [n] ports of a direction. *)
Definition port_names flags (n : nat) : list string :=
  (λ k, port_prefix flags +:+ fmt_u32 (N.of_nat k)) <$> seq 0 n.
End ReadVoc.

Section WritesVoc.
Context {Srv : Type}.
Implicit Types (w : World Srv) (a : Addr).

(** Both vectors have an entry at index [i], and both entries have a buffer
    of at least [nframes] samples ([has_frames], as a test). *)
Definition has_framesb (nframes : N) w (i : N) : bool :=
  match input_buffer w i, output_buffer w i with
  | Some bin, Some bout =>
      bool_decide (N.to_nat nframes <= length bin)%nat
      && bool_decide (N.to_nat nframes <= length bout)%nat
  | _, _ => false
  end.

(** Each of the first 1024 input and output ports has a buffer of at least
    [nframes] samples.  Nothing is asked about which ports share a buffer. *)
Definition frames_available (nframes : N) w : bool :=
  forallb (has_framesb nframes w) (indices (N.to_nat num_ports)).

(** [a] is the buffer of one of the 1024 output ports. *)
Definition is_output_buffer w a : Prop :=
  exists i, i < num_ports /\ output_addr w i = Some a.

(** From [w] to [w'] nothing was written but samples of index below [n] in
    buffers at addresses in [D]. *)
Definition writes_within (n : nat) (D : Addr -> Prop) w w' : Prop :=
  same_layout w w'
  /\ (forall a, drop n <$> buffers w' !! a = drop n <$> buffers w !! a)
  /\ (forall a, ¬ D a -> buffers w' !! a = buffers w !! a).
End WritesVoc.

(** * Proofs *)

(** ** The formats, on a few values *)

Example fmt_u32_1023 : fmt_u32 1023 = "1023"%string.
Proof. reflexivity. Qed.

Example fmt_2_0x_values :
  (fmt_2_0x 0, fmt_2_0x 1, fmt_2_0x 17, fmt_2_0x 4096)
  = ("  ", " 1", "11", "1000")%string.
Proof. reflexivity. Qed.

Example first_and_last_port_names :
  ("input-" +:+ fmt_u32 0, "output-" +:+ fmt_u32 (num_ports - 1))
  = ("input-0", "output-1023")%string.
Proof. reflexivity. Qed.

(** ** The monad and the loops *)
Section Loops.

Context {Srv : Type}.
Implicit Types (w : World Srv) (body : N -> M Srv unit).

Lemma for_each_app (l1 l2 : list N) body w :
  for_each (l1 ++ l2) body w =
  match for_each l1 body w with
  | Returned _ w' => for_each l2 body w'
  | Exited code w' => Exited code w'
  | Undefined => Undefined
  | OutOfFuel => OutOfFuel
  end.
Proof.
  revert w. induction l1 as [|i l1 IH]; intros w; simpl; [done|].
  destruct (body i w); auto.
Qed.

Lemma for_each_ext (l : list N) (f g : N -> M Srv unit) w :
  (forall i w, f i w = g i w) -> for_each l f w = for_each l g w.
Proof.
  intros Hfg. revert w. induction l as [|i l IH]; intros w; simpl; [done|].
  rewrite Hfg. destruct (g i w); auto.
Qed.

Lemma u32_succ_small (i bound : N) :
  i < bound -> bound < 2 ^ 32 -> u32_succ i = i + 1.
Proof.
  intros Hi Hb. unfold u32_succ. apply N.mod_small. lia.
Qed.

(** From [i] on, [bound - i] units of fuel are enough, and the counter
    never wraps. *)
Lemma for_u32_from (n : nat) : forall fuel (i bound : N) body w,
  bound < 2 ^ 32 ->
  (N.to_nat i + n)%nat = N.to_nat bound ->
  (n <= fuel)%nat ->
  for_u32 fuel i bound body w = for_each (N.of_nat <$> seq (N.to_nat i) n) body w.
Proof.
  induction n as [|n IH]; intros fuel i bound body w Hb Hn Hf.
  - assert (i = bound) as -> by lia.
    destruct fuel; simpl; rewrite N.ltb_irrefl; done.
  - destruct fuel as [|fuel]; [lia|]. simpl.
    assert (i < bound) as Hlt by lia.
    apply N.ltb_lt in Hlt as Hlt'. rewrite Hlt'.
    rewrite N2Nat.id. unfold bind.
    destruct (body i w) as [[] w'| | |]; try done.
    rewrite (u32_succ_small i bound) by done.
    rewrite (IH fuel (i + 1) bound body w') by lia.
    replace (N.to_nat (i + 1)) with (S (N.to_nat i)) by lia. done.
Qed.

Lemma for_u32_unroll (bound : N) body w :
  bound < 2 ^ 32 ->
  for_u32 (N.to_nat bound) 0 bound body w = for_each (indices (N.to_nat bound)) body w.
Proof.
  intros Hb. apply (for_u32_from (N.to_nat bound)); [done|simpl; lia|lia].
Qed.

Lemma indices_snoc (n : nat) : indices (S n) = indices n ++ [N.of_nat n].
Proof. unfold indices. rewrite seq_S, fmap_app. done. Qed.

End Loops.

(** ** Copying one buffer *)
Section Copy.
Context {Srv : Type}.
Implicit Types (w : World Srv) (a : Addr) (b : list jack_default_audio_sample_t).



End Copy.

(** ** The loop of [process] *)
Section Ready.
Context {Srv : Type}.
Implicit Types (w : World Srv) (a : Addr) (b : list jack_default_audio_sample_t).







End Ready.

(** ** What [process] can touch *)
Section Frame.

Context {Srv : Type}.
Implicit Types (w : World Srv).

Lemma same_but_buffers_refl w : same_but_buffers w w.
Proof. by repeat split. Qed.

Lemma same_but_buffers_trans w1 w2 w3 :
  same_but_buffers w1 w2 -> same_but_buffers w2 w3 -> same_but_buffers w1 w3.
Proof.
  intros (?&?&?&?&?&?) (?&?&?&?&?&?). repeat split; congruence.
Qed.

Lemma memory_only_bind {A B} (m : M Srv A) (k : A -> M Srv B) :
  memory_only m -> (forall a, memory_only (k a)) -> memory_only (bind m k).
Proof.
  intros Hm Hk w. unfold bind. specialize (Hm w).
  destruct (m w) as [a w1|code w1| |]; try done.
  specialize (Hk a w1). destruct (k a w1); try done;
    by eapply same_but_buffers_trans.
Qed.

Lemma memory_only_ret {A} (a : A) : memory_only (ret (Srv:=Srv) a).
Proof. intros w. apply same_but_buffers_refl. Qed.

Lemma memory_only_load src k : memory_only (load (Srv:=Srv) src k).
Proof.
  intros w. unfold load. destruct src as [a|]; [|done].
  destruct (buffers w !! a ≫= _); [|done]. apply same_but_buffers_refl.
Qed.

Lemma memory_only_store dst k v : memory_only (store (Srv:=Srv) dst k v).
Proof.
  intros w. unfold store. destruct dst as [a|]; [|done].
  destruct (buffers w !! a); [|done]. destruct (decide _); [|done].
  by repeat split.
Qed.

Lemma memory_only_copy_loop count : forall src i dst j,
  memory_only (copy_loop (Srv:=Srv) count src i dst j).
Proof.
  induction count as [|count IH]; intros src i dst j; simpl.
  - apply memory_only_ret.
  - apply memory_only_bind; [apply memory_only_load|]. intros v.
    apply memory_only_bind; [apply memory_only_store|]. intros _. apply IH.
Qed.

Lemma memory_only_process_port nframes port :
  memory_only (process_port (Srv:=Srv) nframes port).
Proof.
  unfold process_port.
  apply memory_only_bind.
  { intros w. unfold input_ports_at. destruct (_ !! _); [|done]. apply same_but_buffers_refl. }
  intros p_in. apply memory_only_bind.
  { intros w. apply same_but_buffers_refl. }
  intros in_. apply memory_only_bind.
  { intros w. unfold output_ports_at. destruct (_ !! _); [|done]. apply same_but_buffers_refl. }
  intros p_out. apply memory_only_bind.
  { intros w. apply same_but_buffers_refl. }
  intros out. apply memory_only_copy_loop.
Qed.

Lemma memory_only_for_u32 fuel : forall i bound (body : N -> M Srv unit),
  (forall k, memory_only (body k)) -> memory_only (for_u32 fuel i bound body).
Proof.
  induction fuel as [|fuel IH]; intros i bound body Hbody; simpl.
  - destruct (i <? bound); [done|]. apply memory_only_ret.
  - destruct (i <? bound); [|apply memory_only_ret].
    apply memory_only_bind; [apply Hbody|]. intros _. by apply IH.
Qed.

Lemma memory_only_process nframes arg : memory_only (process (Srv:=Srv) nframes arg).
Proof.
  unfold process. apply memory_only_bind.
  - apply memory_only_for_u32. intros k. apply memory_only_process_port.
  - intros _. apply memory_only_ret.
Qed.

End Frame.

(** ** The processing callback *)
Section Callback.
Context {Srv : Type}.
Implicit Types (w : World Srv) (a : Addr) (b : list jack_default_audio_sample_t).









End Callback.


(** ** The registration loops *)
Section Registration.
Context {Srv : Type} `{!JackServer Srv}.
Variable hdr : JackHeader.
Implicit Types (w : World Srv) (e : Event) (flags : JackPortFlags).

Lemma register_input_port_round i w :
  register_input_port hdr i w = register_round hdr JackPortIsInput i w.
Proof.
  unfold register_input_port, register_round, bind, get_jack_client, jack_port_register.
  simpl. destruct (srv_port_register _ _ _ _ _ _) as [[p|] s]; done.
Qed.

Lemma register_output_port_round i w :
  register_output_port hdr i w = register_round hdr JackPortIsOutput i w.
Proof.
  unfold register_output_port, register_round, bind, get_jack_client, jack_port_register.
  simpl. destruct (srv_port_register _ _ _ _ _ _) as [[p|] s]; done.
Qed.

(** The first [k] rounds of a registration loop, started in [w]: either all
    succeed, or round [j < k] is refused and the process exits there. *)
Lemma register_rounds flags (k : nat) w :
  match for_each (indices k) (register_round hdr flags) w with
  | Returned _ w' =>
      exists ps, length ps = k
        /\ jack_client w' = jack_client w
        /\ ports_of flags w' = ports_of flags w ++ ps
        /\ ports_of (other flags) w' = ports_of (other flags) w
        /\ same_memory w w'
        /\ trace w' = trace w
             ++ imap (λ j p, registration hdr (jack_client w) flags (N.of_nat j) (Some p)) ps
  | Exited code w' =>
      code = 1%Z /\ exists ps, (length ps < k)%nat
        /\ jack_client w' = jack_client w
        /\ ports_of flags w' = ports_of flags w ++ ps
        /\ ports_of (other flags) w' = ports_of (other flags) w
        /\ same_memory w w'
        /\ trace w' = trace w
             ++ imap (λ j p, registration hdr (jack_client w) flags (N.of_nat j) (Some p)) ps
             ++ [registration hdr (jack_client w) flags (N.of_nat (length ps)) None;
                 Ev_stderr (fail_message flags (N.of_nat (length ps)));
                 Ev_exit 1]
  | _ => False
  end.
Proof.
  induction k as [|k IH].
  - simpl. exists []. rewrite !app_nil_r. by split_and!.
  - rewrite indices_snoc, for_each_app.
    destruct (for_each (indices k) _ w) as [[] wk|code wk| |]; [| |done|done].
    + destruct IH as (ps & Hlen & Hjc & Hps & Hoth & [Hpb Hbuf] & Htr).
      simpl. unfold register_round.
      destruct (srv_port_register _ _ _ _ _ _) as [[p|] s].
      * exists (ps ++ [p]). rewrite length_app. simpl.
        split_and!; try (destruct flags; simpl in *; congruence || done).
        -- lia.
        -- destruct flags; simpl in *; rewrite Hps, <- app_assoc; done.
        -- destruct flags; simpl in *; rewrite Htr, imap_app, <- app_assoc; simpl;
             by rewrite Hjc, Hlen, Nat.add_0_r.
      * split; [done|]. exists ps.
        split_and!; try (destruct flags; simpl in *; congruence || done).
        -- lia.
        -- simpl. rewrite Htr, Hjc, Hlen, <- !app_assoc. done.
    + destruct IH as (-> & ps & Hlen & Hrest). split; [done|].
      exists ps. split; [lia|done].
Qed.
End Registration.

(** Closes a goal [exists w' .., m w = Returned _ w' /\ .. /\ trace w' = trace w ++ _ /\ ..]
    once [m w] has been run: the projections of the final world are computed
    one at a time, never by unfolding the nested record updates. *)
Ltac finish_run :=
  unfold same_globals, same_memory;
  repeat (lazymatch goal with |- ex _ => eexists end); split_and!;
  lazymatch goal with
  | |- trace _ = _ => cbn; rewrite <- ?app_assoc; reflexivity
  | |- _ => reflexivity
  end.

(** ** [setup] and [run_client] *)
Section Setup.
Context {Srv : Type} `{!JackServer Srv}.
Variable hdr : JackHeader.
Implicit Types (w : World Srv) (e : Event) (flags : JackPortFlags).

Lemma open_client_spec w :
  let r := srv_client_open "jack_large_number_ports" JackNullOption None (srv w) in
  match r.1.1 with
  | None =>
      exists w', open_client hdr w = Exited 1 w'
        /\ jack_client w' = None /\ input_ports w' = input_ports w
        /\ output_ports w' = output_ports w /\ same_memory w w'
        /\ trace w' = trace w ++ open_failed_trace hdr r.1.2
  | Some c =>
      exists w' pro, open_client hdr w = Returned tt w'
        /\ jack_client w' = Some c /\ input_ports w' = input_ports w
        /\ output_ports w' = output_ports w /\ same_memory w w'
        /\ trace w' = trace w ++ pro /\ forallb is_prologue pro = true
  end.
Proof.
  unfold open_client, bind, jack_client_open, set_jack_client, get_jack_client,
    open_failed_trace.
  cbn zeta.
  destruct (srv_client_open _ _ _ _) as [[[c|] st] s1]; cbn.
  - unfold bind, print_stderr, emit, ret, jack_get_client_name, jack_set_process_callback,
      jack_on_shutdown, jack_get_sample_rate, print_stdout, emit.
    destruct (test_bits st (JackServerStarted hdr));
      destruct (test_bits st (JackNameNotUnique hdr)); cbn;
      repeat (match goal with |- context [srv_get_client_name ?c ?s] =>
                destruct (srv_get_client_name c s) as [? ?] eqn:? end; cbn);
      repeat (match goal with |- context [srv_get_sample_rate ?c ?s] =>
                destruct (srv_get_sample_rate c s) as [? ?] eqn:? end; cbn);
      finish_run.
  - unfold bind, print_stderr, emit, ret, exit.
    destruct (test_bits st (JackServerFailed hdr)); cbn; finish_run.
Qed.

Lemma run_client_spec w (r : Z) (s1 : Srv) :
  srv_activate (jack_client w) (srv w) = (r, s1) ->
  exists w', run_client w
             = Exited (if decide (r = 0%Z) then 0%Z else 1%Z) w'
    /\ same_globals w w'
    /\ trace w' = trace w
         ++ (if decide (r = 0%Z) then full_run_trace (jack_client w)
             else activation_failed_trace (jack_client w) r).
Proof.
  intros Hact.
  unfold run_client, bind, get_jack_client, jack_activate,
    full_run_trace, activation_failed_trace.
  rewrite Hact. cbn.
  destruct (decide (r = 0%Z)) as [->|Hr]; cbn; finish_run.
Qed.

Lemma registrations_length (c : option Client) flags (ps : list Port) :
  length (registrations hdr c flags ps) = length ps.
Proof. unfold registrations. by rewrite length_imap. Qed.

Lemma register_input_ports_rounds w :
  register_input_ports hdr w
  = for_each (indices (N.to_nat num_ports)) (register_round hdr JackPortIsInput) w.
Proof.
  unfold register_input_ports. rewrite for_u32_unroll by done.
  apply for_each_ext, register_input_port_round.
Qed.

Lemma register_output_ports_rounds w :
  register_output_ports hdr w
  = for_each (indices (N.to_nat num_ports)) (register_round hdr JackPortIsOutput) w.
Proof.
  unfold register_output_ports. rewrite for_u32_unroll by done.
  apply for_each_ext, register_output_port_round.
Qed.

Lemma setup_spec w : setup_outcome hdr w (setup hdr w).
Proof.
  unfold setup, bind.
  pose proof (open_client_spec w) as Hopen. cbn zeta in Hopen.
  destruct (srv_client_open _ _ _ _) as [[[c|] st] s1] eqn:Hsrv; cbn in Hopen.
  - destruct Hopen as (w1 & pro & -> & Hc1 & Hi1 & Ho1 & [Hpb1 Hb1] & Ht1 & Hpro).
    rewrite register_input_ports_rounds.
    pose proof (register_rounds hdr JackPortIsInput (N.to_nat num_ports) w1) as Hin.
    destruct (for_each _ _ w1) as [[] w2|code w2| |]; [| |done|done].
    + destruct Hin as (ins & Hlen & Hc2 & Hi2 & Ho2 & [Hpb2 Hb2] & Ht2).
      rewrite register_output_ports_rounds.
      pose proof (register_rounds hdr JackPortIsOutput (N.to_nat num_ports) w2) as Hout.
      destruct (for_each _ _ w2) as [[] w3|code w3| |]; [| |done|done].
      * destruct Hout as (outs & Hlen' & Hc3 & Ho3 & Hi3 & [Hpb3 Hb3] & Ht3).
        simpl in *.
        apply (setup_done hdr w w3 c pro ins outs); try done; try congruence.
        -- split; congruence.
        -- rewrite Ht3, Ht2, Ht1, Hc2, Hc1, <- !app_assoc. done.
      * destruct Hout as (-> & outs & Hlen' & Hc3 & Ho3 & Hi3 & [Hpb3 Hb3] & Ht3).
        simpl in *.
        apply (setup_port_refused hdr w w3 c pro ins outs JackPortIsOutput);
          try done; try congruence.
        -- split; congruence.
        -- right. done.
        -- rewrite Ht3, Ht2, Ht1, Hc2, Hc1, <- !app_assoc. done.
    + destruct Hin as (-> & ins & Hlen & Hc2 & Hi2 & Ho2 & [Hpb2 Hb2] & Ht2).
      simpl in *.
      apply (setup_port_refused hdr w w2 c pro ins [] JackPortIsInput);
        try done; try congruence.
      * rewrite app_nil_r. congruence.
      * split; congruence.
      * left. done.
      * rewrite Ht2, Ht1, Hc1, <- !app_assoc. done.
  - destruct Hopen as (w1 & -> & Hc1 & Hi1 & Ho1 & Hm1 & Ht1).
    by apply (setup_no_client hdr w w1 s1 st).
Qed.

End Setup.

(** ** Traces *)
Section Traces.
Context {Srv : Type} `{!JackServer Srv}.
Variable hdr : JackHeader.
Implicit Types (w : World Srv) (e : Event) (flags : JackPortFlags) (l : list Event).

Lemma filter_all (P : Event -> bool) l : Forall P l -> filter P l = l.
Proof.
  induction 1 as [|e l He _ IH]; [done|].
  rewrite filter_cons_True by done. by rewrite IH.
Qed.

Lemma filter_none (P : Event -> bool) l : Forall (λ e, ¬ P e) l -> filter P l = [].
Proof.
  induction 1 as [|e l He _ IH]; [done|].
  by rewrite filter_cons_False.
Qed.

Lemma prologue_forall pro (Q : Event -> bool) :
  (forall e, is_prologue e = true -> Q e = false) ->
  forallb is_prologue pro = true -> Forall (λ e, ¬ Q e) pro.
Proof.
  intros HQ Hpro. apply Forall_forall. intros e He.
  rewrite forallb_forall in Hpro. apply list_elem_of_In, Hpro, HQ in He.
  rewrite He. auto.
Qed.

Lemma registrations_forall (c : option Client) flags (ps : list Port) (Q : Event -> Prop) :
  (forall i p, Q (registration hdr c flags i (Some p))) ->
  Forall Q (registrations hdr c flags ps).
Proof.
  intros HQ. apply Forall_forall. intros e He.
  apply elem_of_lookup_imap in He as (k & p & -> & _). apply HQ.
Qed.

(** A list with a single element of some kind splits around it in one way. *)
Lemma split_at_unique (P : Event -> bool) l1 : forall l1' e e' l2 l2',
  Forall (λ x, ¬ P x) l1' -> Forall (λ x, ¬ P x) l2' -> P e ->
  l1 ++ e :: l2 = l1' ++ e' :: l2' -> l1 = l1' /\ e = e' /\ l2 = l2'.
Proof.
  induction l1 as [|a l1 IH]; intros [|a' l1'] e e' l2 l2' H1 H2 He Heq;
    simpl in Heq; injection Heq as Hhd Htl; subst.
  - done.
  - apply Forall_cons in H1 as [Ha' _]. done.
  - apply Forall_app in H2 as [_ H2]. apply Forall_cons in H2 as [He' _]. done.
  - apply Forall_cons in H1 as [_ H1].
    destruct (IH l1' e e' l2 l2' H1 H2 He Htl) as (-> & -> & ->). done.
Qed.

End Traces.

(** ** The life of the process *)
Section Lifecycle.
Context {Srv : Type} `{!JackServer Srv}.
Variable hdr : JackHeader.
Implicit Types (w : World Srv) (e : Event) (flags : JackPortFlags).

Lemma main_after_setup argc argv w w1 :
  setup hdr w = Returned tt w1 -> main hdr argc argv w = run_client w1.
Proof. intros H. unfold main, bind. by rewrite H. Qed.

Lemma main_setup_exits argc argv w code w' :
  setup hdr w = Exited code w' -> main hdr argc argv w = Exited code w'.
Proof. intros H. unfold main, bind. by rewrite H. Qed.

(** [main] never returns, never runs out of fuel and never runs into
    undefined behaviour: it always calls [exit], with status 0 or 1. *)
Lemma main_exits argc argv w :
  exists code w', main hdr argc argv w = Exited code w' /\ (code = 0 \/ code = 1)%Z.
Proof.
  pose proof (setup_spec hdr w) as Hs.
  inversion Hs as [w' ? ? ? ? ? ? ? ? Heq | w' ? ? ? ? ? ? ? ? ? ? ? ? Heq | w1 ? ? ? ? ? ? ? ? ? ? ? ? Heq];
    symmetry in Heq.
  - exists 1%Z, w'. split; [by apply main_setup_exits|by right].
  - exists 1%Z, w'. split; [by apply main_setup_exits|by right].
  - destruct (srv_activate (jack_client w1) (srv w1)) as [r s1] eqn:Hact.
    destruct (run_client_spec w1 r s1 Hact) as (w' & Hrun & _).
    rewrite (main_after_setup argc argv w w1 Heq).
    eexists _, w'. split; [exact Hrun|]. destruct (decide _); auto.
Qed.

Lemma open_failed_trace_kinds (status : N) (Q : Event -> bool) :
  (forall n r st, Q (Ev_client_open n JackNullOption None r st) = false) ->
  (forall m, Q (Ev_stderr m) = false) -> Q (Ev_exit 1) = false ->
  Forall (λ e, ¬ Q e) (open_failed_trace hdr status).
Proof.
  intros H1 H2 H3. unfold open_failed_trace.
  destruct (test_bits _ _); repeat constructor; rewrite ?H1, ?H2, ?H3; auto.
Qed.


(** C4.  If [jack_client_open] answers NULL, [main] exits with status 1;
    all it has done is the call itself, the diagnostic(s) on stderr and
    [exit]: no port registration was attempted. *)
Theorem open_failure_exits_before_any_registration
    argc argv (s : Srv) pb bufs (status : N) (s1 : Srv) :
  srv_client_open "jack_large_number_ports" JackNullOption None s = ((None, status), s1) ->
  exists w', main hdr argc argv (initial_world s pb bufs) = Exited 1 w'
    /\ trace w' = open_failed_trace hdr status
    /\ Ev_stderr ("jack_client_open() failed, status = 0x" +:+ fmt_2_0x status +:+ endl)
         ∈ trace w'
    /\ filter is_register (trace w') = [].
Proof.
  intros Hopen.
  pose proof (open_client_spec hdr (initial_world s pb bufs)) as Hspec.
  cbn zeta in Hspec. simpl (srv _) in Hspec. rewrite Hopen in Hspec.
  destruct Hspec as (w' & Hrun & _ & _ & _ & _ & Htr). simpl in Htr.
  exists w'. split_and!.
  - apply main_setup_exits. unfold setup, bind. by rewrite Hrun.
  - done.
  - rewrite Htr. unfold open_failed_trace. set_solver.
  - rewrite Htr. apply filter_none. by apply open_failed_trace_kinds.
Qed.

(** C7.  If [setup] succeeds and [jack_activate] answers a nonzero value,
    [main] prints "cannot activate client" on stderr and exits with
    status 1, and does nothing else. *)
Theorem activation_failure_exits argc argv (s : Srv) pb bufs w1 (r : Z) (s1 : Srv) :
  setup hdr (initial_world s pb bufs) = Returned tt w1 ->
  srv_activate (jack_client w1) (srv w1) = (r, s1) ->
  r ≠ 0%Z ->
  exists w', main hdr argc argv (initial_world s pb bufs) = Exited 1 w'
    /\ trace w' = trace w1
         ++ [Ev_activate (jack_client w1) r; Ev_stderr "cannot activate client"; Ev_exit 1].
Proof.
  intros Hsetup Hact Hr.
  destruct (run_client_spec w1 r s1 Hact) as (w' & Hrun & _ & Htr).
  rewrite decide_False in Hrun by done. rewrite decide_False in Htr by done.
  exists w'. split; [|done].
  by rewrite (main_after_setup argc argv _ w1 Hsetup).
Qed.

(** C5.  If [setup] succeeds and [jack_activate] answers 0, [main] sleeps
    for 60 seconds and then, in this order, announces the close on stdout,
    calls [jack_deactivate], calls [jack_client_close] and exits with
    status 0. *)
Theorem full_run_deactivates_closes_and_exits_0
    argc argv (s : Srv) pb bufs w1 (s1 : Srv) :
  setup hdr (initial_world s pb bufs) = Returned tt w1 ->
  srv_activate (jack_client w1) (srv w1) = (0%Z, s1) ->
  exists w', main hdr argc argv (initial_world s pb bufs) = Exited 0 w'
    /\ trace w' = trace w1
         ++ [Ev_activate (jack_client w1) 0; Ev_sleep_for 60;
             Ev_stdout ("Starting close" +:+ endl);
             Ev_deactivate (jack_client w1); Ev_client_close (jack_client w1);
             Ev_exit 0].
Proof.
  intros Hsetup Hact.
  destruct (run_client_spec w1 0%Z s1 Hact) as (w' & Hrun & _ & Htr).
  exists w'. split; [|done].
  by rewrite (main_after_setup argc argv _ w1 Hsetup).
Qed.

(** C6.  In whatever state the process is, [jack_shutdown] ends it with
    exit status 1 and does nothing else: the trace gains the [exit] alone
    (no [jack_deactivate], no [jack_client_close]), and the server state, the
    globals and the memory are untouched. *)
Theorem shutdown_exits_1_without_cleanup (arg : N) w :
  exists w', jack_shutdown arg w = Exited 1 w'
    /\ trace w' = trace w ++ [Ev_exit 1]
    /\ srv w' = srv w
    /\ same_globals w w'.
Proof.
  exists (log (Ev_exit 1) w). by repeat split.
Qed.


Lemma prologue_not_register e : is_prologue e = true -> is_register e = false.
Proof. by destruct e. Qed.

Lemma prologue_not_activate e : is_prologue e = true -> is_activate e = false.
Proof. by destruct e. Qed.

Lemma prologue_not_cleanup e : is_prologue e = true -> is_cleanup e = false.
Proof. by destruct e. Qed.

Lemma prologue_not_failed e : is_prologue e = true -> registration_failed e = false.
Proof. by destruct e. Qed.

(** No event of a successful [setup], and no event before a refused
    registration, is of a kind [Q] that excludes the prologue and the
    successful registrations. *)
Lemma setup_trace_kinds (Q : Event -> bool) pro (c : option Client) (ins outs : list Port) :
  (forall e, is_prologue e = true -> Q e = false) ->
  (forall c n t f b p, Q (Ev_port_register c n t f b (Some p)) = false) ->
  forallb is_prologue pro = true ->
  Forall (λ e, ¬ Q e)
    (pro ++ registrations hdr c JackPortIsInput ins
         ++ registrations hdr c JackPortIsOutput outs).
Proof.
  intros Hpro Hreg Hall. rewrite !Forall_app. split_and!.
  - by apply prologue_forall.
  - apply registrations_forall. intros i p. unfold registration. rewrite Hreg. auto.
  - apply registrations_forall. intros i p. unfold registration. rewrite Hreg. auto.
Qed.

Lemma registrations_are_registers (c : option Client) flags (ps : list Port) :
  filter is_register (registrations hdr c flags ps) = registrations hdr c flags ps.
Proof. apply filter_all, registrations_forall. intros i p. exact I. Qed.

Lemma not_elem_of_kind (Q : Event -> bool) (l : list Event) e :
  Forall (λ x, ¬ Q x) l -> e ∈ l -> Q e = true -> False.
Proof.
  intros Hl He HQ. rewrite Forall_forall in Hl. apply (Hl e He). by rewrite HQ.
Qed.

(** C2.  In a run of [main] that reaches [jack_activate], the registration
    calls made before it are exactly 1024 successful registrations of input
    ports named input-0, input-1, ..., input-1023 followed by 1024 successful
    registrations of output ports named output-0, ..., output-1023, in this
    order; the handles they returned are the contents of the two vectors. *)
Theorem all_ports_registered_before_activation
    argc argv (s : Srv) pb bufs code w' pre (c : option Client) (r : Z) post :
  main hdr argc argv (initial_world s pb bufs) = Exited code w' ->
  trace w' = pre ++ Ev_activate c r :: post ->
  exists ins outs : list Port,
    length ins = N.to_nat num_ports /\ length outs = N.to_nat num_ports
    /\ filter is_register pre
       = imap (λ i p, Ev_port_register c ("input-" +:+ fmt_u32 (N.of_nat i))
                        (JACK_DEFAULT_AUDIO_TYPE hdr) JackPortIsInput 0 (Some p)) ins
         ++ imap (λ o p, Ev_port_register c ("output-" +:+ fmt_u32 (N.of_nat o))
                        (JACK_DEFAULT_AUDIO_TYPE hdr) JackPortIsOutput 0 (Some p)) outs
    /\ input_ports w' = ins /\ output_ports w' = outs.
Proof.
  intros Hmain Htrace.
  assert (Ev_activate c r ∈ trace w') as Hin by (rewrite Htrace; set_solver).
  pose proof (setup_spec hdr (initial_world s pb bufs)) as Hs.
  inversion Hs as [w1 ? st ? ? ? ? ? Htr Heq
                  | w1 c1 pro ins outs flags Hpro ? ? ? ? ? Htr Heq
                  | w1 c1 pro ins outs Hpro Hc1 Hi1 Ho1 ? Hli Hlo Htr Heq];
    symmetry in Heq; simpl in Htr.
  - rewrite (main_setup_exits argc argv _ _ _ Heq) in Hmain.
    injection Hmain as <- <-. exfalso. rewrite Htr in Hin.
    apply (not_elem_of_kind is_activate _ _ (open_failed_trace_kinds st is_activate
             ltac:(done) ltac:(done) ltac:(done)) Hin). done.
  - rewrite (main_setup_exits argc argv _ _ _ Heq) in Hmain.
    injection Hmain as <- <-. exfalso. rewrite Htr in Hin.
    rewrite app_assoc in Hin. apply elem_of_app in Hin as [Hin|Hin].
    + apply (not_elem_of_kind is_activate _ _
               (setup_trace_kinds is_activate pro (Some c1) ins outs
                  prologue_not_activate ltac:(done) Hpro) Hin). done.
    + unfold registration in Hin.
      repeat (apply elem_of_cons in Hin as [Hin|Hin]; [done|]).
      by apply elem_of_nil in Hin.
  - rewrite (main_after_setup argc argv _ _ Heq) in Hmain.
    destruct (srv_activate (jack_client w1) (srv w1)) as [r1 s1] eqn:Hact.
    destruct (run_client_spec w1 r1 s1 Hact) as (w2 & Hrun & (Hc2 & Hi2 & Ho2 & _) & Htr2).
    rewrite Hrun in Hmain. injection Hmain as _ <-.
    rewrite Htrace, Htr in Htr2.
    assert (exists rest, (if decide (r1 = 0%Z) then full_run_trace (jack_client w1)
                          else activation_failed_trace (jack_client w1) r1)
                         = Ev_activate (jack_client w1) r1 :: rest
                         /\ Forall (λ e, ¬ is_activate e) rest) as (rest & Hrest & Hnone).
    { destruct (decide (r1 = 0%Z)) as [->|_]; eexists; (split; [reflexivity|]);
        repeat constructor; auto. }
    rewrite Hrest, app_assoc in Htr2.
    apply (split_at_unique is_activate) in Htr2 as (Hpre & Hev & _); [| |done|done].
    2:{ rewrite <- app_assoc.
        by apply (setup_trace_kinds is_activate pro (Some c1) ins outs prologue_not_activate). }
    injection Hev as -> ->.
    exists ins, outs. simpl in Hi1, Ho1. split_and!; try congruence.
    rewrite Hpre, !filter_app, !registrations_are_registers.
    rewrite (filter_none is_register pro) by (by apply prologue_forall; [apply prologue_not_register|]).
    rewrite Hc1. done.
Qed.


(** C3.  If some call of [jack_port_register] in a run of [main] answers
    NULL, then that call is followed by the message "Failed to register
    input port <i>" (or "... output port <i>"), with the index of the refused
    port and a newline, on stderr and by [exit(1)], with nothing in between
    and no refused registration before;
    the run contains no [jack_activate] (so the callback never runs) and no
    [jack_deactivate] or [jack_client_close] (no cleanup). *)
Theorem registration_failure_exits_1_before_activation
    argc argv (s : Srv) pb bufs code w' e :
  main hdr argc argv (initial_world s pb bufs) = Exited code w' ->
  e ∈ trace w' ->
  registration_failed e = true ->
  code = 1%Z
  /\ (exists pre c i,
        (e = Ev_port_register c ("input-" +:+ fmt_u32 i) (JACK_DEFAULT_AUDIO_TYPE hdr)
                              JackPortIsInput 0 None
         /\ trace w' = pre ++ [e;
                               Ev_stderr ("Failed to register input port "
                                          +:+ fmt_u32 i +:+ endl);
                               Ev_exit 1]
         \/ e = Ev_port_register c ("output-" +:+ fmt_u32 i) (JACK_DEFAULT_AUDIO_TYPE hdr)
                                 JackPortIsOutput 0 None
            /\ trace w' = pre ++ [e;
                                  Ev_stderr ("Failed to register output port "
                                             +:+ fmt_u32 i +:+ endl);
                                  Ev_exit 1])
        /\ filter registration_failed pre = [])
  /\ filter is_activate (trace w') = []
  /\ filter is_cleanup (trace w') = [].
Proof.
  intros Hmain Hin Hfail.
  pose proof (setup_spec hdr (initial_world s pb bufs)) as Hs.
  inversion Hs as [w1 ? st ? ? ? ? ? Htr Heq
                  | w1 c1 pro ins outs flags Hpro ? ? ? ? ? Htr Heq
                  | w1 c1 pro ins outs Hpro Hc1 Hi1 Ho1 ? Hli Hlo Htr Heq];
    symmetry in Heq; simpl in Htr.
  - rewrite (main_setup_exits argc argv _ _ _ Heq) in Hmain.
    injection Hmain as <- <-. exfalso. rewrite Htr in Hin.
    apply (not_elem_of_kind registration_failed _ _
             (open_failed_trace_kinds st registration_failed
                ltac:(done) ltac:(done) ltac:(done)) Hin Hfail).
  - rewrite (main_setup_exits argc argv _ _ _ Heq) in Hmain.
    injection Hmain as <- <-.
    pose proof (setup_trace_kinds registration_failed pro (Some c1) ins outs
                  prologue_not_failed ltac:(done) Hpro) as Hok.
    rewrite Htr in Hin. rewrite app_assoc in Hin, Htr.
    apply elem_of_app in Hin as [Hin|Hin].
    { exfalso. apply (not_elem_of_kind registration_failed _ _ Hok Hin Hfail). }
    assert (e = registration hdr (Some c1) flags
                  (N.of_nat (length (match flags with
                                     | JackPortIsInput => ins
                                     | JackPortIsOutput => outs
                                     end))) None) as ->.
    { apply elem_of_cons in Hin as [->|Hin]; [done|].
      apply elem_of_cons in Hin as [->|Hin]; [done|].
      apply list_elem_of_singleton in Hin as ->. done. }
    split; [done|]. split_and!.
    + destruct flags.
      * eexists _, (Some c1), (N.of_nat (length ins)).
        split; [left; split; [reflexivity|exact Htr]|by apply filter_none].
      * eexists _, (Some c1), (N.of_nat (length outs)).
        split; [right; split; [reflexivity|exact Htr]|by apply filter_none].
    + rewrite Htr, filter_app.
      rewrite (filter_none is_activate (pro ++ _))
        by (by apply (setup_trace_kinds is_activate pro (Some c1) ins outs
                        prologue_not_activate)).
      done.
    + rewrite Htr, filter_app.
      rewrite (filter_none is_cleanup (pro ++ _))
        by (by apply (setup_trace_kinds is_cleanup pro (Some c1) ins outs
                        prologue_not_cleanup)).
      done.
  - exfalso.
    rewrite (main_after_setup argc argv _ _ Heq) in Hmain.
    destruct (srv_activate (jack_client w1) (srv w1)) as [r1 s1] eqn:Hact.
    destruct (run_client_spec w1 r1 s1 Hact) as (w2 & Hrun & _ & Htr2).
    rewrite Hrun in Hmain. injection Hmain as _ <-.
    rewrite Htr2, Htr in Hin. rewrite app_assoc in Hin.
    apply elem_of_app in Hin as [Hin|Hin].
    + rewrite <- app_assoc in Hin.
      apply (not_elem_of_kind registration_failed _ _
               (setup_trace_kinds registration_failed pro (Some c1) ins outs
                  prologue_not_failed ltac:(done) Hpro) Hin Hfail).
    + destruct (decide (r1 = 0%Z));
        unfold full_run_trace, activation_failed_trace in Hin;
        repeat (apply elem_of_cons in Hin as [->|Hin]; [done|]);
        by apply elem_of_nil in Hin.
Qed.

(** C8.  Once [setup] has returned, both vectors hold exactly 1024 handles
    and the rest of [main] leaves them as they are until the process exits;
    neither [process] nor [jack_shutdown] changes either vector, in any
    state. *)
Theorem port_vectors_fixed_after_setup argc argv (s : Srv) pb bufs w1 :
  setup hdr (initial_world s pb bufs) = Returned tt w1 ->
  length (input_ports w1) = N.to_nat num_ports
  /\ length (output_ports w1) = N.to_nat num_ports
  /\ (exists code w', main hdr argc argv (initial_world s pb bufs) = Exited code w'
        /\ input_ports w' = input_ports w1 /\ output_ports w' = output_ports w1)
  /\ (forall nframes arg w r w', process nframes arg w = Returned r w' ->
        input_ports w' = input_ports w /\ output_ports w' = output_ports w)
  /\ (forall arg w code w', jack_shutdown arg w = Exited code w' ->
        input_ports w' = input_ports w /\ output_ports w' = output_ports w).
Proof.
  intros Hsetup.
  pose proof (setup_spec hdr (initial_world s pb bufs)) as Hs.
  rewrite Hsetup in Hs.
  inversion Hs as [ | | w1' c1 pro ins outs Hpro Hc1 Hi1 Ho1 ? Hli Hlo Htr Heq].
  subst w1'. simpl in Hi1, Ho1. split_and!.
  - by rewrite Hi1.
  - by rewrite Ho1.
  - destruct (srv_activate (jack_client w1) (srv w1)) as [r1 s1] eqn:Hact.
    destruct (run_client_spec w1 r1 s1 Hact) as (w2 & Hrun & (_ & Hi2 & Ho2 & _) & _).
    eexists _, w2. rewrite (main_after_setup argc argv _ _ Hsetup). by split_and!.
  - intros nframes arg w r w' Hrun.
    pose proof (memory_only_process nframes arg w) as Hframe. rewrite Hrun in Hframe.
    destruct Hframe as (_ & Hi & Ho & _). done.
  - intros arg w code w' Hrun. injection Hrun as _ <-. done.
Qed.

End Lifecycle.

(** ** Runs against the simulated server

    Each statement of the previous sections, applied to a run of the program
    against [Sim.server]. *)




(** A full run: the call of [jack_activate] is event number 2053. *)
Lemma all_ports_registered_before_activation_sim :
  exists ins outs : list Port,
    length ins = N.to_nat num_ports /\ length outs = N.to_nat num_ports
    /\ filter is_register (take 2053 (trace (Sim.final Sim.good)))
       = imap (λ i p, Ev_port_register (Some 7) ("input-" +:+ fmt_u32 (N.of_nat i))
                        (JACK_DEFAULT_AUDIO_TYPE Sim.hdr) JackPortIsInput 0 (Some p)) ins
         ++ imap (λ o p, Ev_port_register (Some 7) ("output-" +:+ fmt_u32 (N.of_nat o))
                        (JACK_DEFAULT_AUDIO_TYPE Sim.hdr) JackPortIsOutput 0 (Some p)) outs
    /\ input_ports (Sim.final Sim.good) = ins /\ output_ports (Sim.final Sim.good) = outs.
Proof.
  apply (all_ports_registered_before_activation Sim.hdr 0%Z [] Sim.good ∅ ∅
           0%Z (Sim.final Sim.good) (take 2053 (trace (Sim.final Sim.good)))
           (Some 7) 0%Z (drop 2054 (trace (Sim.final Sim.good)))).
  - vm_compute. reflexivity.
  - vm_compute. reflexivity.
Defined.

(** The server refuses the 1501st registration, that of output-476. *)
Lemma registration_failure_exits_1_before_activation_sim :
  1%Z = 1%Z
  /\ (exists pre c i,
        (Ev_port_register (Some 7) "output-476" "32 bit float mono audio"
           JackPortIsOutput 0 None
         = Ev_port_register c ("input-" +:+ fmt_u32 i) (JACK_DEFAULT_AUDIO_TYPE Sim.hdr)
                            JackPortIsInput 0 None
         /\ trace (Sim.final (Sim.port_limit 1500))
            = pre ++ [Ev_port_register (Some 7) "output-476" "32 bit float mono audio"
                        JackPortIsOutput 0 None;
                      Ev_stderr ("Failed to register input port "
                                 +:+ fmt_u32 i +:+ endl);
                      Ev_exit 1]
         \/ Ev_port_register (Some 7) "output-476" "32 bit float mono audio"
              JackPortIsOutput 0 None
            = Ev_port_register c ("output-" +:+ fmt_u32 i) (JACK_DEFAULT_AUDIO_TYPE Sim.hdr)
                               JackPortIsOutput 0 None
            /\ trace (Sim.final (Sim.port_limit 1500))
               = pre ++ [Ev_port_register (Some 7) "output-476" "32 bit float mono audio"
                           JackPortIsOutput 0 None;
                         Ev_stderr ("Failed to register output port "
                                    +:+ fmt_u32 i +:+ endl);
                         Ev_exit 1])
        /\ filter registration_failed pre = [])
  /\ filter is_activate (trace (Sim.final (Sim.port_limit 1500))) = []
  /\ filter is_cleanup (trace (Sim.final (Sim.port_limit 1500))) = [].
Proof.
  apply (registration_failure_exits_1_before_activation Sim.hdr 0%Z []
           (Sim.port_limit 1500) ∅ ∅ 1%Z (Sim.final (Sim.port_limit 1500))
           (Ev_port_register (Some 7) "output-476" "32 bit float mono audio"
              JackPortIsOutput 0 None)).
  - vm_compute. reflexivity.
  - apply (bool_decide_unpack _). vm_compute. exact I.
  - reflexivity.
Defined.

(** The server refuses the connection with status 0x11. *)
Lemma open_failure_exits_before_any_registration_sim :
  exists w', main Sim.hdr 0%Z [] (initial_world Sim.no_server ∅ ∅) = Exited 1 w'
    /\ trace w' = open_failed_trace Sim.hdr 17
    /\ Ev_stderr ("jack_client_open() failed, status = 0x" +:+ fmt_2_0x 17 +:+ endl)
         ∈ trace w'
    /\ filter is_register (trace w') = [].
Proof.
  apply (open_failure_exits_before_any_registration Sim.hdr 0%Z [] Sim.no_server ∅ ∅
           17 Sim.no_server).
  reflexivity.
Defined.

(** The server refuses the activation with -1. *)
Lemma activation_failure_exits_sim :
  exists w', main Sim.hdr 0%Z [] (initial_world Sim.no_activation ∅ ∅) = Exited 1 w'
    /\ trace w' = trace (Sim.after_setup Sim.no_activation)
         ++ [Ev_activate (jack_client (Sim.after_setup Sim.no_activation)) (-1);
             Ev_stderr "cannot activate client"; Ev_exit 1].
Proof.
  apply (activation_failure_exits Sim.hdr 0%Z [] Sim.no_activation ∅ ∅
           (Sim.after_setup Sim.no_activation) (-1)%Z
           (srv (Sim.after_setup Sim.no_activation))).
  - vm_compute. reflexivity.
  - vm_compute. reflexivity.
  - lia.
Defined.

(** A full run. *)
Lemma full_run_deactivates_closes_and_exits_0_sim :
  exists w', main Sim.hdr 0%Z [] (initial_world Sim.good ∅ ∅) = Exited 0 w'
    /\ trace w' = trace (Sim.after_setup Sim.good)
         ++ [Ev_activate (jack_client (Sim.after_setup Sim.good)) 0; Ev_sleep_for 60;
             Ev_stdout ("Starting close" +:+ endl);
             Ev_deactivate (jack_client (Sim.after_setup Sim.good));
             Ev_client_close (jack_client (Sim.after_setup Sim.good));
             Ev_exit 0].
Proof.
  apply (full_run_deactivates_closes_and_exits_0 Sim.hdr 0%Z [] Sim.good ∅ ∅
           (Sim.after_setup Sim.good) (srv (Sim.after_setup Sim.good))).
  - vm_compute. reflexivity.
  - vm_compute. reflexivity.
Defined.

(** The vectors of a full run. *)
Lemma port_vectors_fixed_after_setup_sim :
  length (input_ports (Sim.after_setup Sim.good)) = N.to_nat num_ports
  /\ length (output_ports (Sim.after_setup Sim.good)) = N.to_nat num_ports
  /\ (exists code w', main Sim.hdr 0%Z [] (initial_world Sim.good ∅ ∅) = Exited code w'
        /\ input_ports w' = input_ports (Sim.after_setup Sim.good)
        /\ output_ports w' = output_ports (Sim.after_setup Sim.good))
  /\ (forall nframes arg (w : World Sim.State) r w',
        process nframes arg w = Returned r w' ->
        input_ports w' = input_ports w /\ output_ports w' = output_ports w)
  /\ (forall arg (w : World Sim.State) code w',
        jack_shutdown arg w = Exited code w' ->
        input_ports w' = input_ports w /\ output_ports w' = output_ports w).
Proof.
  apply (port_vectors_fixed_after_setup Sim.hdr 0%Z [] Sim.good ∅ ∅
           (Sim.after_setup Sim.good)).
  vm_compute. reflexivity.
Defined.

(** * Further properties of the program *)

(** ** [process] outside the states the server promises *)
Section Layout.
Context {Srv : Type}.
Implicit Types (w : World Srv) (i : N) (a : Addr).

Lemma same_layout_refl w : same_layout w w.
Proof. split; [apply same_but_buffers_refl|done]. Qed.

Lemma same_layout_trans w1 w2 w3 :
  same_layout w1 w2 -> same_layout w2 w3 -> same_layout w1 w3.
Proof.
  intros [H1 L1] [H2 L2]. split; [by eapply same_but_buffers_trans|].
  intros a. by rewrite L2, L1.
Qed.

Lemma layout_only_ret {A} (x : A) : layout_only (ret (Srv:=Srv) x).
Proof. intros w. apply same_layout_refl. Qed.

Lemma layout_only_bind {A B} (m : M Srv A) (k : A -> M Srv B) :
  layout_only m -> (forall x, layout_only (k x)) -> layout_only (bind m k).
Proof.
  intros Hm Hk w. unfold bind. specialize (Hm w).
  destruct (m w) as [x w1|code w1| |]; try done.
  specialize (Hk x w1). destruct (k x w1); try done.
  by eapply same_layout_trans.
Qed.

Lemma layout_only_load src k : layout_only (load (Srv:=Srv) src k).
Proof.
  intros w. unfold load. destruct src as [a|]; [|done].
  destruct (buffers w !! a ≫= _); [|done]. apply same_layout_refl.
Qed.

Lemma layout_only_store dst k v : layout_only (store (Srv:=Srv) dst k v).
Proof.
  intros w. unfold store. destruct dst as [a|]; [|done].
  destruct (buffers w !! a) as [b|] eqn:Hb; [|done]. destruct (decide _); [|done].
  split; [by repeat split|]. intros a'. simpl.
  destruct (decide (a' = a)) as [->|Hne].
  - by rewrite lookup_insert_eq, Hb; simpl; rewrite length_insert.
  - by rewrite lookup_insert_ne.
Qed.

Lemma layout_only_copy_loop count : forall src (k : nat) dst (k' : nat),
  layout_only (copy_loop (Srv:=Srv) count src k dst k').
Proof.
  induction count as [|count IH]; intros src k dst k'; simpl.
  - apply layout_only_ret.
  - apply layout_only_bind; [apply layout_only_load|]. intros v.
    apply layout_only_bind; [apply layout_only_store|]. intros _. apply IH.
Qed.

Lemma layout_only_process_port nframes port :
  layout_only (process_port (Srv:=Srv) nframes port).
Proof.
  unfold process_port.
  apply layout_only_bind.
  { intros w. unfold input_ports_at. destruct (_ !! _); [|done]. apply same_layout_refl. }
  intros p_in. apply layout_only_bind.
  { intros w. apply same_layout_refl. }
  intros in_. apply layout_only_bind.
  { intros w. unfold output_ports_at. destruct (_ !! _); [|done]. apply same_layout_refl. }
  intros p_out. apply layout_only_bind.
  { intros w. apply same_layout_refl. }
  intros out. apply layout_only_copy_loop.
Qed.

Lemma layout_only_for_each (l : list N) (body : N -> M Srv unit) :
  (forall k, layout_only (body k)) -> layout_only (for_each l body).
Proof.
  intros Hbody. induction l as [|i l IH]; intros w; simpl.
  - apply same_layout_refl.
  - specialize (Hbody i w). destruct (body i w) as [[] w1| | |]; try done.
    specialize (IH w1). destruct (for_each l body w1); try done.
    by eapply same_layout_trans.
Qed.

Lemma layout_only_process nframes arg : layout_only (process (Srv:=Srv) nframes arg).
Proof.
  intros w. unfold process, bind. rewrite for_u32_unroll by done.
  pose proof (layout_only_for_each (indices (N.to_nat num_ports))
                (process_port nframes) (layout_only_process_port nframes) w) as H.
  by destruct (for_each _ _ w).
Qed.

End Layout.

Section Needs.
Context {Srv : Type}.
Implicit Types (w : World Srv) (a : Addr).

Lemma copy_loop_needs (count : nat) : forall src (k : nat) dst (k' : nat) w w',
  copy_loop count src k dst k' w = Returned tt w' ->
  (0 < count)%nat ->
  exists sa da sb db, src = Some sa /\ dst = Some da
    /\ buffers w !! sa = Some sb /\ buffers w !! da = Some db
    /\ (k + count <= length sb)%nat /\ (k' + count <= length db)%nat.
Proof.
  induction count as [|count IH]; intros src k dst k' w w' Hrun Hpos; [lia|].
  simpl in Hrun. unfold bind, load, store in Hrun.
  destruct src as [sa|]; [|done].
  destruct (buffers w !! sa) as [sb|] eqn:Hsb; [|done]. simpl in Hrun.
  destruct (sb !! k) as [v|] eqn:Hv; [|done].
  destruct dst as [da|]; [|done].
  destruct (buffers w !! da) as [db|] eqn:Hdb; [|done].
  destruct (decide (k' < length db)%nat) as [Hk'|]; [|done].
  apply lookup_lt_Some in Hv as Hk.
  exists sa, da, sb, db. split_and!; try done.
  - destruct count as [|count]; [lia|].
    apply IH in Hrun as (sa' & da' & sb' & db' & Hs & Hd & Hsb' & Hdb' & Hl & Hl'); [|lia].
    injection Hs as <-. simpl in Hsb'.
    destruct (decide (sa = da)) as [->|Hne].
    + rewrite lookup_insert_eq in Hsb'. injection Hsb' as <-.
      rewrite length_insert in Hl. assert (sb = db) as -> by congruence. lia.
    + rewrite lookup_insert_ne in Hsb' by done. assert (sb' = sb) as -> by congruence. lia.
  - destruct count as [|count]; [lia|].
    apply IH in Hrun as (sa' & da' & sb' & db' & Hs & Hd & Hsb' & Hdb' & Hl & Hl'); [|lia].
    injection Hd as <-. simpl in Hdb'.
    rewrite lookup_insert_eq in Hdb'. injection Hdb' as <-.
    rewrite length_insert in Hl'. lia.
Qed.

Lemma process_port_needs nframes (i : N) w w' :
  process_port nframes i w = Returned tt w' ->
  is_Some (input_ports w !! N.to_nat i) /\ is_Some (output_ports w !! N.to_nat i)
  /\ (0 < nframes -> has_frames nframes w i).
Proof.
  unfold process_port, bind, input_ports_at, output_ports_at, jack_port_get_buffer,
    std_copy.
  intros Hrun.
  destruct (input_ports w !! N.to_nat i) as [pi|] eqn:Hpi; [|done].
  destruct (output_ports w !! N.to_nat i) as [po|] eqn:Hpo; [|done].
  split_and!; [done|done|]. intros Hpos.
  apply copy_loop_needs in Hrun as (sa & da & sb & db & Hs & Hd & Hsb & Hdb & Hl & Hl');
    [|lia].
  exists sb, db. unfold input_buffer, output_buffer, input_addr, output_addr.
  rewrite Hpi, Hpo. simpl. rewrite Hs, Hd. simpl.
  split_and!; try done; lia.
Qed.

Lemma has_frames_same_layout nframes w0 w1 (i : N) :
  same_layout w0 w1 -> has_frames nframes w1 i -> has_frames nframes w0 i.
Proof.
  intros [(_ & Hin & Hout & _ & Hpb & _) Hlen] (bin & bout & Hbi & Hbo & Hli & Hlo).
  unfold has_frames, input_buffer, output_buffer, input_addr, output_addr in *.
  rewrite Hin, Hpb in Hbi. rewrite Hout, Hpb in Hbo.
  destruct (input_ports w0 !! N.to_nat i ≫= _) as [sa|]; [|done].
  destruct (output_ports w0 !! N.to_nat i ≫= _) as [da|]; [|done].
  simpl in *.
  pose proof (Hlen sa) as Hs. pose proof (Hlen da) as Hd.
  rewrite Hbi in Hs. rewrite Hbo in Hd.
  destruct (buffers w0 !! sa) as [sb|]; [|done].
  destruct (buffers w0 !! da) as [db|]; [|done].
  simpl in *. exists sb, db. injection Hs as Hs. injection Hd as Hd.
  split_and!; try done; lia.
Qed.

Lemma for_each_process_port_needs nframes (l : list N) : forall w w',
  for_each l (process_port nframes) w = Returned tt w' ->
  forall i, i ∈ l ->
    is_Some (input_ports w !! N.to_nat i) /\ is_Some (output_ports w !! N.to_nat i)
    /\ (0 < nframes -> has_frames nframes w i).
Proof.
  induction l as [|j l IH]; intros w w' Hrun i Hi; [by apply elem_of_nil in Hi|].
  simpl in Hrun.
  pose proof (layout_only_process_port nframes j w) as Hlay.
  destruct (process_port nframes j w) as [[] w1| | |] eqn:Hstep; try done.
  apply elem_of_cons in Hi as [->|Hi].
  - by eapply process_port_needs.
  - destruct (IH w1 w' Hrun i Hi) as (Hin & Hout & Hfr).
    destruct Hlay as [Hsame Hlen]. pose proof Hsame as (_ & Ei & Eo & _).
    rewrite Ei in Hin. rewrite Eo in Hout. split_and!; try done.
    intros Hpos. apply (has_frames_same_layout nframes w w1 i); [by split|auto].
Qed.

(** X1.  [process] returns only if both vectors hold at least 1024 ports
    and, unless [nframes] is 0, each of the first 1024 input and output
    ports has a buffer of at least [nframes] samples.  Called earlier or
    with shorter buffers, it indexes out of range. *)
Theorem process_needs_every_port (nframes arg : N) w (r : Z) w' :
  process nframes arg w = Returned r w' ->
  (N.to_nat num_ports <= length (input_ports w))%nat
  /\ (N.to_nat num_ports <= length (output_ports w))%nat
  /\ (0 < nframes -> forall i, i < num_ports -> has_frames nframes w i).
Proof.
  unfold process, bind. rewrite for_u32_unroll by done.
  destruct (for_each _ _ w) as [[] w1| | |] eqn:Hloop; try done. intros _.
  pose proof (for_each_process_port_needs nframes _ w w1 Hloop) as Hall.
  assert (forall i, i < num_ports -> i ∈ indices (N.to_nat num_ports)) as Hidx.
  { intros i Hi. unfold indices. apply list_elem_of_fmap. exists (N.to_nat i).
    split; [lia|]. apply elem_of_seq. lia. }
  destruct (Hall (num_ports - 1)) as (Hin & Hout & _); [apply Hidx; done|].
  apply lookup_lt_is_Some in Hin, Hout. split_and!.
  - change (N.to_nat (num_ports - 1)) with 1023%nat in Hin.
    change (N.to_nat num_ports) with 1024%nat. lia.
  - change (N.to_nat (num_ports - 1)) with 1023%nat in Hout.
    change (N.to_nat num_ports) with 1024%nat. lia.
  - intros Hpos i Hi. destruct (Hall i (Hidx i Hi)) as (_ & _ & Hfr). auto.
Qed.

End Needs.

Section ZeroFrames.
Context {Srv : Type}.
Implicit Types (w : World Srv) (a : Addr).

Lemma process_port_zero_frames (i : N) w :
  (N.to_nat i < length (input_ports w))%nat ->
  (N.to_nat i < length (output_ports w))%nat ->
  process_port 0 i w = Returned tt w.
Proof.
  intros Hi Ho.
  destruct (lookup_lt_is_Some_2 _ _ Hi) as [pi Hpi].
  destruct (lookup_lt_is_Some_2 _ _ Ho) as [po Hpo].
  unfold process_port, bind, input_ports_at, output_ports_at, jack_port_get_buffer.
  by rewrite Hpi, Hpo.
Qed.

Lemma for_each_zero_frames (l : list N) w :
  (forall i, i ∈ l -> (N.to_nat i < length (input_ports w))%nat
                      /\ (N.to_nat i < length (output_ports w))%nat) ->
  for_each l (process_port 0) w = Returned tt w.
Proof.
  induction l as [|i l IH]; intros Hl; [done|]. simpl.
  destruct (Hl i) as [Hi Ho]; [by left|].
  rewrite process_port_zero_frames by done.
  apply IH. intros j Hj. apply Hl. by right.
Qed.

(** X4.  With [nframes = 0] the 1024 ports are all [process] needs: it
    returns 0 and changes nothing, even when [jack_port_get_buffer] answers
    NULL for every port. *)
Theorem process_zero_frames_needs_no_buffer (arg : N) w :
  (N.to_nat num_ports <= length (input_ports w))%nat ->
  (N.to_nat num_ports <= length (output_ports w))%nat ->
  process 0 arg w = Returned 0%Z w.
Proof.
  intros Hi Ho. unfold process, bind. rewrite for_u32_unroll by done.
  rewrite for_each_zero_frames; [done|].
  intros i Hin. unfold indices in Hin.
  apply list_elem_of_fmap in Hin as (k & -> & Hk%elem_of_seq).
  rewrite Nat2N.id. lia.
Qed.
End ZeroFrames.

(** ** [process] twice *)
Section Twice.
Context {Srv : Type}.
Implicit Types (w : World Srv) (a : Addr).



End Twice.

(** ** Every run of [main], event by event *)
Section Shapes.
Context {Srv : Type} `{!JackServer Srv}.
Variable hdr : JackHeader.
Implicit Types (w : World Srv) (e : Event) (flags : JackPortFlags).

Lemma open_client_trace w (c : Client) (status : N) (s1 : Srv) :
  srv_client_open "jack_large_number_ports" JackNullOption None (srv w)
    = ((Some c, status), s1) ->
  exists w' name rate, open_client hdr w = Returned tt w'
    /\ jack_client w' = Some c /\ input_ports w' = input_ports w
    /\ output_ports w' = output_ports w
    /\ trace w' = trace w ++ prologue_trace hdr c status name rate.
Proof.
  intros Hopen.
  unfold open_client, bind, jack_client_open, set_jack_client, get_jack_client,
    prologue_trace.
  cbn zeta. rewrite Hopen. cbn.
  unfold bind, print_stderr, emit, ret, jack_get_client_name, jack_set_process_callback,
    jack_on_shutdown, jack_get_sample_rate, print_stdout, emit.
  destruct (test_bits status (JackServerStarted hdr));
    destruct (test_bits status (JackNameNotUnique hdr)); cbn;
    repeat (match goal with |- context [srv_get_client_name ?c ?s] =>
              destruct (srv_get_client_name c s) as [? ?] eqn:? end; cbn);
    repeat (match goal with |- context [srv_get_sample_rate ?c ?s] =>
              destruct (srv_get_sample_rate c s) as [? ?] eqn:? end; cbn);
    first [ lazymatch goal with n : string |- _ => eexists _, n, _ end
          | eexists _, EmptyString, _ ];
    split_and!;
    lazymatch goal with
    | |- trace _ = _ => cbn; rewrite <- ?app_assoc; reflexivity
    | |- _ => reflexivity
    end.
Qed.

Lemma main_runs argc argv w :
  exists code w', main hdr argc argv w = Exited code w' /\ main_run hdr w code w'.
Proof.
  unfold main, setup, bind.
  destruct (srv_client_open "jack_large_number_ports" JackNullOption None (srv w))
    as [[[c|] st] s1] eqn:Hsrv.
  - destruct (open_client_trace w c st s1 Hsrv)
      as (w1 & name & rate & -> & Hc1 & Hi1 & Ho1 & Ht1).
    rewrite register_input_ports_rounds.
    pose proof (register_rounds hdr JackPortIsInput (N.to_nat num_ports) w1) as Hin.
    destruct (for_each _ _ w1) as [[] w2|code w2| |]; [| |done|done].
    + destruct Hin as (ins & Hlen & Hc2 & Hi2 & Ho2 & _ & Ht2).
      rewrite register_output_ports_rounds.
      pose proof (register_rounds hdr JackPortIsOutput (N.to_nat num_ports) w2) as Hout.
      destruct (for_each _ _ w2) as [[] w3|code w3| |]; [| |done|done].
      * destruct Hout as (outs & Hlen' & Hc3 & Ho3 & Hi3 & _ & Ht3).
        simpl in *.
        destruct (srv_activate (jack_client w3) (srv w3)) as [r s4] eqn:Hact.
        destruct (run_client_spec w3 r s4 Hact) as (w4 & -> & (Hc4 & Hi4 & Ho4 & _) & Ht4).
        assert (trace w3 = trace w ++ prologue_trace hdr c st name rate
                             ++ registered_trace hdr c ins outs) as Ht.
        { unfold registered_trace, registrations.
          rewrite Ht3, Ht2, Ht1, Hc2, Hc1, <- !app_assoc. done. }
        assert (jack_client w3 = Some c) as Hc by congruence.
        rewrite Hc, Ht, <- !app_assoc in Ht4.
        destruct (decide (r = 0%Z)) as [->|Hr]; eexists _, w4; (split; [reflexivity|]).
        -- apply (run_full hdr w w4 c st name rate ins outs); congruence.
        -- apply (run_activation_refused hdr w w4 c st name rate ins outs r); congruence.
      * destruct Hout as (-> & outs & Hlen' & Hc3 & Ho3 & Hi3 & _ & Ht3).
        simpl in *. eexists _, w3. split; [reflexivity|].
        apply (run_port_refused hdr w w3 c st name rate ins outs JackPortIsOutput);
          try congruence.
        -- right. done.
        -- unfold registered_trace, refusal_trace, registrations.
           rewrite Ht3, Ht2, Ht1, Hc2, Hc1, <- !app_assoc. done.
    + destruct Hin as (-> & ins & Hlen & Hc2 & Hi2 & Ho2 & _ & Ht2).
      simpl in *. eexists _, w2. split; [reflexivity|].
      apply (run_port_refused hdr w w2 c st name rate ins [] JackPortIsInput);
        try congruence.
      * rewrite app_nil_r. congruence.
      * left. done.
      * unfold registered_trace, refusal_trace, registrations.
        rewrite Ht2, Ht1, Hc1, <- !app_assoc. simpl. done.
  - pose proof (open_client_spec hdr w) as Hopen. cbn zeta in Hopen.
    rewrite Hsrv in Hopen. cbn in Hopen.
    destruct Hopen as (w1 & -> & Hc1 & Hi1 & Ho1 & _ & Ht1).
    eexists _, w1. split; [reflexivity|].
    by apply (run_no_client hdr w w1 st s1).
Qed.
End Shapes.

Section Reading.
Context {Srv : Type} `{!JackServer Srv}.
Variable hdr : JackHeader.
Implicit Types (w : World Srv) (e : Event) (flags : JackPortFlags) (l : list Event).

Lemma registrations_snoc (c : option Client) flags (ps : list Port) (p : Port) :
  registrations hdr c flags (ps ++ [p])
  = registrations hdr c flags ps ++ [registration hdr c flags (N.of_nat (length ps)) (Some p)].
Proof.
  unfold registrations. rewrite imap_app. simpl. by rewrite Nat.add_0_r.
Qed.

Lemma registrations_names (c : option Client) flags (ps : list Port) :
  omap register_name (registrations hdr c flags ps) = port_names flags (length ps).
Proof.
  induction ps as [|p ps IH] using rev_ind; [done|].
  rewrite registrations_snoc, omap_app, IH, length_app. simpl.
  unfold port_names. rewrite Nat.add_1_r, seq_S, fmap_app. done.
Qed.

Lemma registrations_ports (c : option Client) flags (ps : list Port) :
  omap (registered_port flags) (registrations hdr c flags ps) = ps.
Proof.
  induction ps as [|p ps IH] using rev_ind; [done|].
  rewrite registrations_snoc, omap_app, IH. simpl. by rewrite decide_True.
Qed.

Lemma registrations_ports_other (c : option Client) flags (ps : list Port) :
  omap (registered_port (other flags)) (registrations hdr c flags ps) = [].
Proof.
  induction ps as [|p ps IH] using rev_ind; [done|].
  rewrite registrations_snoc, omap_app, IH. simpl. by destruct flags.
Qed.

Lemma omap_none {A} (f : Event -> option A) l :
  Forall (λ e, f e = None) l -> omap f l = [].
Proof. induction 1 as [|e l He _ IH]; [done|]. simpl. by rewrite He. Qed.

Lemma prologue_trace_forall (Q : Event -> Prop) (c : Client) (status : N)
    (name : string) (rate : N) :
  (forall n o sn st, Q (Ev_client_open n o sn (Some c) st)) ->
  (forall m, Q (Ev_stderr m)) -> (forall m, Q (Ev_stdout m)) ->
  (forall n, Q (Ev_get_client_name (Some c) n)) ->
  Q (Ev_set_process_callback (Some c)) -> Q (Ev_on_shutdown (Some c)) ->
  (forall r, Q (Ev_get_sample_rate (Some c) r)) ->
  Forall Q (prologue_trace hdr c status name rate).
Proof.
  intros. unfold prologue_trace.
  destruct (test_bits _ _); destruct (test_bits _ _); repeat constructor; auto.
Qed.

Lemma open_failed_trace_forall (Q : Event -> Prop) (status : N) :
  (forall n o sn st, Q (Ev_client_open n o sn None st)) ->
  (forall m, Q (Ev_stderr m)) -> Q (Ev_exit 1) ->
  Forall Q (open_failed_trace hdr status).
Proof.
  intros. unfold open_failed_trace. destruct (test_bits _ _); repeat constructor; auto.
Qed.

(** An event of a kind that a prefix of the list does not contain lies
    behind that prefix. *)
Lemma split_behind_prefix (Q : Event -> Prop) (pro : list Event) :
  forall pre e post rest,
  Forall (λ x, ¬ Q x) pro -> Q e ->
  pre ++ e :: post = pro ++ rest ->
  exists mid, pre = pro ++ mid /\ mid ++ e :: post = rest.
Proof.
  induction pro as [|x pro IH]; intros pre e post rest Hpro He Heq.
  - by exists pre.
  - apply Forall_cons in Hpro as [Hx Hpro].
    destruct pre as [|y pre]; simpl in Heq; injection Heq as -> Heq; [done|].
    destruct (IH pre e post rest Hpro He Heq) as (mid & -> & Hmid).
    by exists mid.
Qed.

Lemma port_names_inj flags (k k' : nat) :
  port_prefix flags +:+ fmt_u32 (N.of_nat k) = port_prefix flags +:+ fmt_u32 (N.of_nat k') ->
  k = k'.
Proof.
  intros Heq. apply Nat2N.inj. apply (inj pretty).
  destruct flags; simpl in Heq; by simplify_eq.
Qed.

Lemma port_names_NoDup (n m : nat) :
  NoDup (port_names JackPortIsInput n ++ port_names JackPortIsOutput m).
Proof.
  apply NoDup_app. split_and!.
  - apply NoDup_fmap_2_strong; [|apply NoDup_seq].
    intros k k' _ _. apply port_names_inj.
  - intros name (k & -> & _)%list_elem_of_fmap (k' & Heq & _)%list_elem_of_fmap.
    simpl in Heq. discriminate.
  - apply NoDup_fmap_2_strong; [|apply NoDup_seq].
    intros k k' _ _. apply port_names_inj.
Qed.

End Reading.

Section Runs.
Context {Srv : Type} `{!JackServer Srv}.
Variable hdr : JackHeader.
Implicit Types (w : World Srv) (e : Event) (flags : JackPortFlags) (l : list Event).

(** The shape of the run that ended in [w']. *)
Lemma main_run_of argc argv w code w' :
  main hdr argc argv w = Exited code w' -> main_run hdr w code w'.
Proof.
  intros Hmain. destruct (main_runs hdr argc argv w) as (code' & w'' & Hrun & Hshape).
  rewrite Hmain in Hrun. by injection Hrun as <- <-.
Qed.

Lemma refusal_names (c : Client) flags (ins outs : list Port) :
  omap register_name (refusal_trace hdr c flags ins outs)
  = [port_prefix flags +:+ fmt_u32 (N.of_nat (length (match flags with
                                                       | JackPortIsInput => ins
                                                       | JackPortIsOutput => outs
                                                       end)))].
Proof. done. Qed.

Lemma prologue_names (c : Client) (status : N) (name : string) (rate : N) :
  omap register_name (prologue_trace hdr c status name rate) = [].
Proof. apply omap_none, prologue_trace_forall; done. Qed.

Lemma port_names_S flags (n : nat) :
  port_names flags (S n) = port_names flags n ++ [port_prefix flags +:+ fmt_u32 (N.of_nat n)].
Proof. unfold port_names. by rewrite seq_S, fmap_app. Qed.

(** X5.  Whatever the server answers, no port name is asked for twice in
    a run of [main]. *)
Theorem requested_port_names_are_distinct
    argc argv (s : Srv) pb bufs code w' :
  main hdr argc argv (initial_world s pb bufs) = Exited code w' ->
  NoDup (omap register_name (trace w')).
Proof.
  intros Hshape%main_run_of.
  inversion Hshape as [w1 st s1 Hopen _ _ _ Htr
                      | w1 c st name rate ins outs flags _ _ _ Hcase Htr
                      | w1 c st name rate ins outs r _ _ _ _ _ _ Htr
                      | w1 c st name rate ins outs _ _ _ _ _ Htr];
    subst; cbn [initial_world trace app] in Htr; rewrite Htr.
  - rewrite omap_none; [constructor|]. apply open_failed_trace_forall; done.
  - unfold registered_trace.
    rewrite !omap_app, prologue_names, !registrations_names, refusal_names, app_nil_l.
    destruct Hcase as [(-> & _ & ->)|(-> & _ & _)].
    + change (length (@nil Port)) with 0%nat.
      change (port_names JackPortIsOutput 0) with (@nil string).
      rewrite app_nil_r, <- port_names_S, <- (app_nil_r (port_names _ _)).
      apply (port_names_NoDup (S (length ins)) 0).
    + rewrite <- app_assoc, <- port_names_S. apply port_names_NoDup.
  - unfold registered_trace.
    rewrite !omap_app, prologue_names, !registrations_names, app_nil_l.
    change (omap register_name (activation_failed_trace (Some c) r)) with (@nil string).
    rewrite app_nil_r. apply port_names_NoDup.
  - unfold registered_trace.
    rewrite !omap_app, prologue_names, !registrations_names, app_nil_l.
    change (omap register_name (full_run_trace (Some c))) with (@nil string).
    rewrite app_nil_r. apply port_names_NoDup.
Qed.

Lemma prologue_no_cleanup (c : Client) (status : N) (name : string) (rate : N) :
  filter is_cleanup (prologue_trace hdr c status name rate) = [].
Proof. apply filter_none, prologue_trace_forall; auto. Qed.

Lemma registered_no_cleanup (c : Client) (ins outs : list Port) :
  filter is_cleanup (registered_trace hdr c ins outs) = [].
Proof.
  apply filter_none. unfold registered_trace. apply Forall_app.
  split; apply registrations_forall; auto.
Qed.

(** X6.  [main] always ends in [exit], with status 0 or 1.  With status 0
    it has called [jack_deactivate] and then [jack_client_close], once each,
    on its handle; with status 1 it has called neither. *)
Theorem connection_is_closed_exactly_on_exit_0 argc argv (s : Srv) pb bufs :
  exists code w', main hdr argc argv (initial_world s pb bufs) = Exited code w'
    /\ (code = 0%Z
        /\ filter is_cleanup (trace w')
           = [Ev_deactivate (jack_client w'); Ev_client_close (jack_client w')]
        \/ code = 1%Z /\ filter is_cleanup (trace w') = []).
Proof.
  destruct (main_runs hdr argc argv (initial_world s pb bufs))
    as (code & w' & Hmain & Hshape).
  exists code, w'. split; [done|].
  inversion Hshape as [w1 st s1 Hopen _ _ _ Htr
                      | w1 c st name rate ins outs flags _ _ _ Hcase Htr
                      | w1 c st name rate ins outs r _ _ _ _ _ _ Htr
                      | w1 c st name rate ins outs Hc _ _ _ _ Htr];
    subst; cbn [initial_world trace app] in Htr; rewrite Htr.
  - right. split; [done|].
    apply filter_none, open_failed_trace_forall; auto.
  - right. split; [done|].
    by rewrite !filter_app, prologue_no_cleanup, registered_no_cleanup.
  - right. split; [done|].
    by rewrite !filter_app, prologue_no_cleanup, registered_no_cleanup.
  - left. split; [done|].
    by rewrite !filter_app, prologue_no_cleanup, registered_no_cleanup, Hc.
Qed.

Lemma registered_forall (Q : Event -> Prop) (c : Client) (ins outs : list Port) :
  (forall f i p, Q (registration hdr (Some c) f i (Some p))) ->
  Forall Q (registered_trace hdr c ins outs).
Proof.
  intros HQ. unfold registered_trace. apply Forall_app.
  split; apply registrations_forall; auto.
Qed.

Lemma prologue_installs_callbacks (c : Client) (status : N) (name : string) (rate : N) :
  Ev_set_process_callback (Some c) ∈ prologue_trace hdr c status name rate
  /\ Ev_on_shutdown (Some c) ∈ prologue_trace hdr c status name rate.
Proof.
  unfold prologue_trace. rewrite !elem_of_app, !elem_of_cons. auto 10.
Qed.

(** X7.  Before [main] registers its first port, and so before it
    activates, it has installed [process] and [jack_shutdown] on its
    handle. *)
Theorem callbacks_are_installed_before_any_port_exists
    argc argv (s : Srv) pb bufs code w' pre e post :
  main hdr argc argv (initial_world s pb bufs) = Exited code w' ->
  trace w' = pre ++ e :: post ->
  is_register e || is_activate e = true ->
  Ev_set_process_callback (jack_client w') ∈ pre
  /\ Ev_on_shutdown (jack_client w') ∈ pre.
Proof.
  intros Hshape%main_run_of Hsplit He.
  assert (forall c st name rate rest,
            jack_client w' = Some c ->
            trace w' = prologue_trace hdr c st name rate ++ rest ->
            Ev_set_process_callback (jack_client w') ∈ pre
            /\ Ev_on_shutdown (jack_client w') ∈ pre) as Hgo.
  { intros c st name rate rest Hc Htr. rewrite Hsplit in Htr.
    apply (split_behind_prefix (λ x, is_register x || is_activate x = true)) in Htr
      as (mid & -> & _); [| |done].
    2:{ apply prologue_trace_forall; simpl; auto. }
    rewrite Hc.
    destruct (prologue_installs_callbacks c st name rate) as [H1 H2].
    split; apply elem_of_app; by left. }
  inversion Hshape as [w1 st s1 Hopen _ _ _ Htr
                      | w1 c st name rate ins outs flags Hc _ _ Hcase Htr
                      | w1 c st name rate ins outs r _ Hc _ _ _ _ Htr
                      | w1 c st name rate ins outs Hc _ _ _ _ Htr];
    subst; cbn [initial_world trace app] in Htr.
  - exfalso.
    assert (e ∈ open_failed_trace hdr st) as Hin.
    { rewrite <- Htr, Hsplit. apply elem_of_app. right. by left. }
    pose proof (open_failed_trace_forall hdr
                  (λ x, is_register x || is_activate x = false) st) as Hall.
    rewrite Forall_forall in Hall. rewrite Hall in He; [done| | | |done]; done.
  - by apply (Hgo c st name rate _ Hc Htr).
  - by apply (Hgo c st name rate _ Hc Htr).
  - by apply (Hgo c st name rate _ Hc Htr).
Qed.

End Runs.

Section Runs2.
Context {Srv : Type} `{!JackServer Srv}.
Variable hdr : JackHeader.
Implicit Types (w : World Srv) (e : Event) (flags : JackPortFlags) (l : list Event).

Lemma registered_ports (c : Client) flags (ins outs : list Port) :
  omap (registered_port flags) (registered_trace hdr c ins outs)
  = match flags with JackPortIsInput => ins | JackPortIsOutput => outs end.
Proof.
  unfold registered_trace. rewrite omap_app.
  destruct flags.
  - rewrite registrations_ports.
    rewrite (registrations_ports_other hdr (Some c) JackPortIsOutput). apply app_nil_r.
  - rewrite registrations_ports.
    rewrite (registrations_ports_other hdr (Some c) JackPortIsInput). done.
Qed.

Lemma prologue_ports flags (c : Client) (status : N) (name : string) (rate : N) :
  omap (registered_port flags) (prologue_trace hdr c status name rate) = [].
Proof. apply omap_none, prologue_trace_forall; done. Qed.

(** X8.  When [main] exits, [input_ports] holds the handles that the
    successful input registrations returned, in the order of the calls, and
    [output_ports] those of the output registrations -- also when a
    registration was refused on the way. *)
Theorem vectors_hold_the_registered_handles
    argc argv (s : Srv) pb bufs code w' :
  main hdr argc argv (initial_world s pb bufs) = Exited code w' ->
  input_ports w' = omap (registered_port JackPortIsInput) (trace w')
  /\ output_ports w' = omap (registered_port JackPortIsOutput) (trace w').
Proof.
  intros Hshape%main_run_of.
  inversion Hshape as [w1 st s1 Hopen _ Hi Ho Htr
                      | w1 c st name rate ins outs flags _ Hi Ho Hcase Htr
                      | w1 c st name rate ins outs r _ _ Hi Ho _ _ Htr
                      | w1 c st name rate ins outs _ Hi Ho _ _ Htr];
    subst; cbn [initial_world trace input_ports output_ports app] in Htr, Hi, Ho;
    rewrite Htr, Hi, Ho.
  - rewrite !omap_none; [done| |]; apply open_failed_trace_forall; done.
  - rewrite !omap_app, !prologue_ports, !registered_ports, !app_nil_l.
    destruct flags; cbn; by rewrite !app_nil_r.
  - rewrite !omap_app, !prologue_ports, !registered_ports, !app_nil_l.
    cbn. by rewrite !app_nil_r.
  - rewrite !omap_app, !prologue_ports, !registered_ports, !app_nil_l.
    cbn. by rewrite !app_nil_r.
Qed.

(** X9.  Every JACK call of a run is made on the handle that
    [jack_client_open] answered, which is the final value of
    [jack_client]. *)
Theorem every_call_uses_the_opened_handle
    argc argv (s : Srv) pb bufs code w' :
  main hdr argc argv (initial_world s pb bufs) = Exited code w' ->
  Forall (λ e, forall c, client_arg e = Some c -> c = jack_client w') (trace w').
Proof.
  intros Hshape%main_run_of.
  inversion Hshape as [w1 st s1 Hopen Hc _ _ Htr
                      | w1 c st name rate ins outs flags Hc _ _ Hcase Htr
                      | w1 c st name rate ins outs r _ Hc _ _ _ _ Htr
                      | w1 c st name rate ins outs Hc _ _ _ _ Htr];
    subst; cbn [initial_world trace app] in Htr; rewrite Htr, Hc.
  - apply open_failed_trace_forall; simpl; intros; congruence.
  - rewrite !Forall_app. split_and!.
    + apply prologue_trace_forall; simpl; intros; congruence.
    + apply registered_forall. simpl. intros; congruence.
    + unfold refusal_trace. repeat constructor; simpl; intros; congruence.
  - rewrite !Forall_app. split_and!.
    + apply prologue_trace_forall; simpl; intros; congruence.
    + apply registered_forall. simpl. intros; congruence.
    + repeat constructor; simpl; intros; congruence.
  - rewrite !Forall_app. split_and!.
    + apply prologue_trace_forall; simpl; intros; congruence.
    + apply registered_forall. simpl. intros; congruence.
    + repeat constructor; simpl; intros; congruence.
Qed.

Lemma registrations_filter_input (c : Client) (ins : list Port) :
  filter is_input_registered (registrations hdr (Some c) JackPortIsInput ins)
  = registrations hdr (Some c) JackPortIsInput ins.
Proof. apply filter_all, registrations_forall. intros i p. exact I. Qed.

(** X10.  No output port is registered, or asked for, before all 1024
    input ports are registered. *)
Theorem outputs_are_registered_after_all_inputs
    argc argv (s : Srv) pb bufs code w' pre e post :
  main hdr argc argv (initial_world s pb bufs) = Exited code w' ->
  trace w' = pre ++ e :: post ->
  is_output_registration e = true ->
  length (filter is_input_registered pre) = N.to_nat num_ports.
Proof.
  intros Hshape%main_run_of Hsplit He.
  assert (forall c st name rate (ins outs : list Port) tail,
            length ins = N.to_nat num_ports ->
            Forall (λ x, ¬ is_input_registered x) tail ->
            trace w' = prologue_trace hdr c st name rate
                       ++ registered_trace hdr c ins outs ++ tail ->
            length (filter is_input_registered pre) = N.to_nat num_ports) as Hgo.
  { intros c st name rate ins outs tail Hlen Htail Htr.
    rewrite Hsplit in Htr. unfold registered_trace in Htr.
    rewrite <- app_assoc, (app_assoc (prologue_trace _ _ _ _ _)) in Htr.
    apply (split_behind_prefix (λ x, is_output_registration x = true)) in Htr
      as (mid & -> & Hmid); [| |done].
    2:{ apply Forall_app. split.
        - apply prologue_trace_forall; simpl; auto.
        - apply registrations_forall. simpl. auto. }
    assert (Forall (λ x, ¬ is_input_registered x) mid) as Hnone.
    { assert (Forall (λ x, ¬ is_input_registered x)
                (registrations hdr (Some c) JackPortIsOutput outs ++ tail)) as Hall.
      { apply Forall_app. split; [|done]. apply registrations_forall. simpl. auto. }
      rewrite <- Hmid in Hall. by apply Forall_app in Hall as [? _]. }
    rewrite !filter_app, (filter_none _ mid Hnone), app_nil_r.
    rewrite registrations_filter_input, length_app, registrations_length.
    rewrite (filter_none is_input_registered (prologue_trace _ _ _ _ _)).
    - simpl. done.
    - apply prologue_trace_forall; simpl; auto. }
  assert (forall l, Forall (λ x, is_output_registration x = false) l ->
            trace w' = l -> False) as Hno.
  { intros l Hl Htr. rewrite Hsplit in Htr. subst l.
    apply Forall_app in Hl as [_ Hl]. apply Forall_cons in Hl as [Hl _]. congruence. }
  inversion Hshape as [w1 st s1 Hopen _ _ _ Htr
                      | w1 c st name rate ins outs flags _ _ _ Hcase Htr
                      | w1 c st name rate ins outs r _ _ _ _ Hli _ Htr
                      | w1 c st name rate ins outs _ _ _ Hli _ Htr];
    subst; cbn [initial_world trace app] in Htr.
  - exfalso. eapply Hno; [|exact Htr]. apply open_failed_trace_forall; done.
  - destruct Hcase as [(-> & _ & ->)|(-> & Hli & _)].
    + exfalso. eapply Hno; [|exact Htr].
      unfold registered_trace. rewrite !Forall_app. split_and!.
      * apply prologue_trace_forall; done.
      * apply registrations_forall. done.
      * constructor.
      * unfold refusal_trace. repeat constructor.
    + eapply (Hgo c st name rate ins outs); [exact Hli| |exact Htr].
      unfold refusal_trace. repeat constructor; simpl; auto.
  - eapply (Hgo c st name rate ins outs); [exact Hli| |exact Htr].
    repeat constructor; simpl; auto.
  - eapply (Hgo c st name rate ins outs); [exact Hli| |exact Htr].
    repeat constructor; simpl; auto.
Qed.

End Runs2.

Section Runs3.
Context {Srv : Type} `{!JackServer Srv}.
Variable hdr : JackHeader.
Implicit Types (w : World Srv) (e : Event) (flags : JackPortFlags) (l : list Event).

Lemma registered_trace_registers (c : Client) (ins outs : list Port) :
  length (filter is_register (registered_trace hdr c ins outs))
  = (length ins + length outs)%nat.
Proof.
  unfold registered_trace.
  rewrite filter_app, !registrations_are_registers, length_app, !registrations_length.
  done.
Qed.

Lemma prologue_no_register (c : Client) (status : N) (name : string) (rate : N) :
  filter is_register (prologue_trace hdr c status name rate) = [].
Proof. apply filter_none, prologue_trace_forall; auto. Qed.

(** X11.  A run of [main] calls [jack_port_register] at most 2048 times,
    and at most one of these calls is refused. *)
Theorem at_most_2048_registration_calls argc argv (s : Srv) pb bufs code w' :
  main hdr argc argv (initial_world s pb bufs) = Exited code w' ->
  (length (filter is_register (trace w')) <= 2 * N.to_nat num_ports)%nat
  /\ (length (filter registration_failed (trace w')) <= 1)%nat.
Proof.
  intros Hshape%main_run_of.
  inversion Hshape as [w1 st s1 Hopen _ _ _ Htr
                      | w1 c st name rate ins outs flags _ _ _ Hcase Htr
                      | w1 c st name rate ins outs r _ _ _ _ Hli Hlo Htr
                      | w1 c st name rate ins outs _ _ _ Hli Hlo Htr];
    subst; cbn [initial_world trace app] in Htr; rewrite Htr.
  - rewrite !filter_none; [change (N.to_nat num_ports) with 1024%nat; simpl; lia| |];
      apply open_failed_trace_forall; auto.
  - rewrite !filter_app, prologue_no_register, !length_app, registered_trace_registers.
    rewrite (filter_none registration_failed (prologue_trace _ _ _ _ _))
      by (apply prologue_trace_forall; auto).
    rewrite (filter_none registration_failed (registered_trace _ _ _ _))
      by (apply registered_forall; auto).
    unfold refusal_trace. cbn [filter].
    change (N.to_nat num_ports) with 1024%nat in *.
    destruct Hcase as [(-> & Hli & ->)|(-> & Hli & Hlo)]; simpl; lia.
  - rewrite !filter_app, prologue_no_register, !length_app, registered_trace_registers.
    rewrite (filter_none registration_failed (prologue_trace _ _ _ _ _))
      by (apply prologue_trace_forall; auto).
    rewrite (filter_none registration_failed (registered_trace _ _ _ _))
      by (apply registered_forall; auto).
    change (N.to_nat num_ports) with 1024%nat in *. simpl. lia.
  - rewrite !filter_app, prologue_no_register, !length_app, registered_trace_registers.
    rewrite (filter_none registration_failed (prologue_trace _ _ _ _ _))
      by (apply prologue_trace_forall; auto).
    rewrite (filter_none registration_failed (registered_trace _ _ _ _))
      by (apply registered_forall; auto).
    change (N.to_nat num_ports) with 1024%nat in *. simpl. lia.
Qed.
End Runs3.

(** ** What [process] writes when buffers are shared *)
Section Writes.
Context {Srv : Type}.
Implicit Types (w : World Srv) (a : Addr).

Lemma writes_within_refl n D w : writes_within n D w w.
Proof. split; [apply same_layout_refl|done]. Qed.

Lemma writes_within_trans n D w1 w2 w3 :
  writes_within n D w1 w2 -> writes_within n D w2 w3 -> writes_within n D w1 w3.
Proof.
  intros (L1 & T1 & O1) (L2 & T2 & O2). split_and!.
  - by eapply same_layout_trans.
  - intros a. by rewrite T2, T1.
  - intros a Ha. by rewrite O2, O1.
Qed.

Lemma writes_within_mono n (D D' : Addr -> Prop) w w' :
  (forall a, D a -> D' a) -> writes_within n D w w' -> writes_within n D' w w'.
Proof. intros HD (L & T & O). split_and!; [done|done|]. intros a Ha. apply O. auto. Qed.

Lemma copy_loop_writes n (count : nat) : forall src (k : nat) dst (k' : nat) w w',
  copy_loop count src k dst k' w = Returned tt w' ->
  (k' + count <= n)%nat ->
  writes_within n (λ a, dst = Some a) w w'.
Proof.
  induction count as [|count IH]; intros src k dst k' w w' Hrun Hn.
  - simpl in Hrun. injection Hrun as <-. apply writes_within_refl.
  - simpl in Hrun. unfold bind, load, store in Hrun.
    destruct src as [sa|]; [|done].
    destruct (buffers w !! sa ≫= _) as [v|]; [|done].
    destruct dst as [da|]; [|done].
    destruct (buffers w !! da) as [db|] eqn:Hdb; [|done].
    destruct (decide (k' < length db)%nat) as [Hk'|]; [|done].
    eapply writes_within_trans; [|apply (IH _ _ _ _ _ _ Hrun); lia].
    split_and!.
    + pose proof (layout_only_store (Srv:=Srv) (Some da) k' v w) as Hl.
      unfold store in Hl. rewrite Hdb in Hl. by rewrite decide_True in Hl.
    + intros a. simpl. destruct (decide (a = da)) as [->|Hne].
      * rewrite lookup_insert_eq, Hdb. simpl. by rewrite drop_insert_lt by lia.
      * by rewrite lookup_insert_ne.
    + intros a Ha. simpl. rewrite lookup_insert_ne; [done|]. congruence.
Qed.

Lemma process_port_writes nframes (i : N) w w' :
  process_port nframes i w = Returned tt w' ->
  writes_within (N.to_nat nframes) (λ a, output_addr w i = Some a) w w'.
Proof.
  unfold process_port, bind, input_ports_at, output_ports_at, jack_port_get_buffer,
    std_copy, output_addr.
  intros Hrun.
  destruct (input_ports w !! N.to_nat i) as [pi|]; [|done].
  destruct (output_ports w !! N.to_nat i) as [po|]; [|done].
  simpl. apply (copy_loop_writes _ _ _ _ _ _ _ _ Hrun). lia.
Qed.

Lemma output_addr_same w w' (i : N) :
  same_but_buffers w w' -> output_addr w' i = output_addr w i.
Proof. intros (_ & _ & Ho & _ & Hpb & _). unfold output_addr. by rewrite Ho, Hpb. Qed.

Lemma input_addr_same w w' (i : N) :
  same_but_buffers w w' -> input_addr w' i = input_addr w i.
Proof. intros (_ & Hi & _ & _ & Hpb & _). unfold input_addr. by rewrite Hi, Hpb. Qed.

Lemma for_each_process_port_writes nframes (D : Addr -> Prop) (l : list N) : forall w w',
  for_each l (process_port nframes) w = Returned tt w' ->
  (forall i a, i ∈ l -> output_addr w i = Some a -> D a) ->
  writes_within (N.to_nat nframes) D w w'.
Proof.
  induction l as [|j l IH]; intros w w' Hrun HD.
  - simpl in Hrun. injection Hrun as <-. apply writes_within_refl.
  - simpl in Hrun.
    destruct (process_port nframes j w) as [[] w1| | |] eqn:Hstep; try done.
    apply process_port_writes in Hstep as Hw.
    eapply writes_within_trans.
    + eapply writes_within_mono; [|exact Hw]. intros a Ha. apply (HD j); [by left|done].
    + apply (IH w1 w' Hrun). intros i a Hi Ha. apply (HD i); [by right|].
      rewrite <- Ha. symmetry. apply output_addr_same. apply Hw.
Qed.

(** Whenever [process] returns, it has written nothing but the first
    [nframes] samples of buffers of output ports. *)
Lemma process_writes nframes arg w (r : Z) w' :
  process nframes arg w = Returned r w' ->
  writes_within (N.to_nat nframes) (is_output_buffer w) w w'.
Proof.
  unfold process, bind. rewrite for_u32_unroll by done.
  destruct (for_each _ _ w) as [[] w1| | |] eqn:Hloop; try done.
  intros Hret. injection Hret as _ <-.
  apply (for_each_process_port_writes _ _ _ _ _ Hloop).
  intros i a Hi Ha. exists i. split; [|done].
  unfold indices in Hi. apply list_elem_of_fmap in Hi as (k & -> & Hk%elem_of_seq).
  change (N.to_nat num_ports) with 1024%nat in Hk. change num_ports with 1024. lia.
Qed.

(** *** [process] returns as soon as the frames are there *)

Lemma copy_loop_returns (count : nat) : forall sa (k : nat) da (k' : nat) w sb db,
  buffers w !! sa = Some sb -> buffers w !! da = Some db ->
  (k + count <= length sb)%nat -> (k' + count <= length db)%nat ->
  exists w', copy_loop count (Some sa) k (Some da) k' w = Returned tt w'.
Proof.
  induction count as [|count IH]; intros sa k da k' w sb db Hsb Hdb Hls Hld.
  - by exists w.
  - destruct (lookup_lt_is_Some_2 sb k) as [v Hv]; [lia|].
    simpl. unfold bind, load, store. rewrite Hsb. simpl. rewrite Hv, Hdb.
    rewrite decide_True by lia.
    destruct (decide (sa = da)) as [->|Hne].
    + apply (IH da (S k) da (S k') _ (<[k':=v]> db) (<[k':=v]> db));
        simpl; rewrite ?lookup_insert_eq, ?length_insert; try done; try lia.
      assert (sb = db) as -> by congruence. lia.
    + apply (IH sa (S k) da (S k') _ sb (<[k':=v]> db));
        simpl; rewrite ?lookup_insert_eq, ?length_insert; try done; try lia.
      by rewrite lookup_insert_ne.
Qed.

Lemma process_port_returns nframes (i : N) w :
  has_frames nframes w i -> exists w', process_port nframes i w = Returned tt w'.
Proof.
  intros (bin & bout & Hbi & Hbo & Hli & Hlo).
  unfold input_buffer, output_buffer, input_addr, output_addr in Hbi, Hbo.
  unfold process_port, bind, input_ports_at, output_ports_at, jack_port_get_buffer,
    std_copy.
  destruct (input_ports w !! N.to_nat i) as [pi|]; [|done].
  destruct (output_ports w !! N.to_nat i) as [po|]; [|done].
  simpl in Hbi, Hbo.
  destruct (port_buffer w !! pi) as [sa|]; [|done].
  destruct (port_buffer w !! po) as [da|]; [|done].
  simpl in Hbi, Hbo.
  apply (copy_loop_returns _ sa 0 da 0 w bin bout); try done; lia.
Qed.

Lemma same_layout_sym w w' : same_layout w w' -> same_layout w' w.
Proof.
  intros [(?&?&?&?&?&?) Hl]. split; [by repeat split|]. intros a. by rewrite Hl.
Qed.

Lemma for_each_process_port_returns nframes (l : list N) : forall w,
  (forall i, i ∈ l -> has_frames nframes w i) ->
  exists w', for_each l (process_port nframes) w = Returned tt w'.
Proof.
  induction l as [|j l IH]; intros w Hl; [by exists w|].
  destruct (process_port_returns nframes j w) as [w1 Hstep]; [apply Hl; by left|].
  pose proof (layout_only_process_port nframes j w) as Hlay. rewrite Hstep in Hlay.
  destruct (IH w1) as [w' Hrun].
  { intros i Hi. apply (has_frames_same_layout nframes w1 w i).
    - by apply same_layout_sym.
    - apply Hl. by right. }
  exists w'. simpl. by rewrite Hstep.
Qed.

Lemma has_framesb_has_frames nframes w (i : N) :
  has_framesb nframes w i = true -> has_frames nframes w i.
Proof.
  unfold has_framesb, has_frames.
  destruct (input_buffer w i) as [bin|]; [|done].
  destruct (output_buffer w i) as [bout|]; [|done].
  rewrite andb_true_iff, !bool_decide_eq_true. intros [? ?]. by exists bin, bout.
Qed.

Lemma process_returns nframes arg w :
  frames_available nframes w = true ->
  exists w', process nframes arg w = Returned 0%Z w'.
Proof.
  unfold frames_available. rewrite forallb_forall. intros Hall.
  destruct (for_each_process_port_returns nframes (indices (N.to_nat num_ports)) w)
    as [w' Hrun].
  { intros i Hi%list_elem_of_In. by apply has_framesb_has_frames, Hall. }
  exists w'. unfold process, bind. rewrite for_u32_unroll by done. by rewrite Hrun.
Qed.

(** C10.  Frame condition of [process], shared buffers included.  When
    each of the 1024 input and output ports has a buffer of [nframes]
    samples, [process] returns and has written only samples of index below
    [nframes] in buffers of output ports: the client handle, both port
    vectors, the server state, the port map and the trace are unchanged;
    every buffer keeps its length and its samples from index [nframes] on;
    memory that is not the buffer of an output port is unchanged; and so is
    every input buffer that is not also the buffer of an output port. *)
Theorem process_writes_nothing_but_output_frames (nframes arg : N) w :
  frames_available nframes w = true ->
  exists w', process nframes arg w = Returned 0%Z w'
    /\ jack_client w' = jack_client w
    /\ input_ports w' = input_ports w
    /\ output_ports w' = output_ports w
    /\ srv w' = srv w /\ port_buffer w' = port_buffer w /\ trace w' = trace w
    /\ (forall a, length <$> buffers w' !! a = length <$> buffers w !! a)
    /\ (forall a, drop (N.to_nat nframes) <$> buffers w' !! a
                  = drop (N.to_nat nframes) <$> buffers w !! a)
    /\ (forall a, (forall i, i < num_ports -> output_addr w i ≠ Some a) ->
          buffers w' !! a = buffers w !! a)
    /\ (forall i, i < num_ports ->
          (forall j, j < num_ports -> output_addr w j ≠ input_addr w i) ->
          input_buffer w' i = input_buffer w i).
Proof.
  intros Hav. destruct (process_returns nframes arg w Hav) as [w' Hrun].
  exists w'. split; [done|].
  destruct (process_writes nframes arg w _ w' Hrun) as ([Hsame Hlen] & Htail & Hout).
  pose proof Hsame as (H1 & H2 & H3 & H4 & H5 & H6).
  assert (forall a, (forall i, i < num_ports -> output_addr w i ≠ Some a) ->
            buffers w' !! a = buffers w !! a) as Hother.
  { intros a Ha. apply Hout. intros (i & Hi & Hia). by apply (Ha i). }
  split_and!; try done.
  intros i Hi Hfree. unfold input_buffer. rewrite (input_addr_same w w' i Hsame).
  destruct (input_addr w i) as [a|] eqn:Ha; [|done]. simpl.
  apply Hother. intros j Hj. by apply Hfree.
Qed.
End Writes.

(** ** The further properties on the simulated server *)

(** A cycle of three frames returns, so every port had its three samples. *)
Lemma process_needs_every_port_sim :
  (N.to_nat num_ports <= length (input_ports Sim.cycle))%nat
  /\ (N.to_nat num_ports <= length (output_ports Sim.cycle))%nat
  /\ (0 < 3 -> forall i, i < num_ports -> has_frames 3 Sim.cycle i).
Proof.
  apply (process_needs_every_port 3 0 Sim.cycle 0%Z
           (match process 3 0 Sim.cycle with Returned _ w => w | _ => Sim.cycle end)).
  vm_compute. reflexivity.
Defined.

(** The client right after [setup]: 2048 ports, no buffer at all. *)
Lemma process_zero_frames_needs_no_buffer_sim :
  process 0 0 (Sim.after_setup Sim.good) = Returned 0%Z (Sim.after_setup Sim.good).
Proof.
  apply (process_zero_frames_needs_no_buffer 0 (Sim.after_setup Sim.good)).
  - apply Nat.leb_le. vm_compute. reflexivity.
  - apply Nat.leb_le. vm_compute. reflexivity.
Defined.


(** The names of a run in which the 1501st registration is refused. *)
Lemma requested_port_names_are_distinct_sim :
  NoDup (omap register_name (trace (Sim.final (Sim.port_limit 1500)))).
Proof.
  apply (requested_port_names_are_distinct Sim.hdr 0%Z [] (Sim.port_limit 1500) ∅ ∅
           1%Z (Sim.final (Sim.port_limit 1500))).
  vm_compute. reflexivity.
Defined.

(** A full run: [jack_activate] is event number 2053. *)
Lemma callbacks_are_installed_before_any_port_exists_sim :
  Ev_set_process_callback (jack_client (Sim.final Sim.good))
    ∈ take 2053 (trace (Sim.final Sim.good))
  /\ Ev_on_shutdown (jack_client (Sim.final Sim.good))
    ∈ take 2053 (trace (Sim.final Sim.good)).
Proof.
  apply (callbacks_are_installed_before_any_port_exists Sim.hdr 0%Z [] Sim.good ∅ ∅
           0%Z (Sim.final Sim.good) (take 2053 (trace (Sim.final Sim.good)))
           (Ev_activate (Some 7) 0) (drop 2054 (trace (Sim.final Sim.good)))).
  - vm_compute. reflexivity.
  - vm_compute. reflexivity.
  - reflexivity.
Defined.

(** The vectors of a run in which the 1501st registration is refused. *)
Lemma vectors_hold_the_registered_handles_sim :
  input_ports (Sim.final (Sim.port_limit 1500))
  = omap (registered_port JackPortIsInput) (trace (Sim.final (Sim.port_limit 1500)))
  /\ output_ports (Sim.final (Sim.port_limit 1500))
  = omap (registered_port JackPortIsOutput) (trace (Sim.final (Sim.port_limit 1500))).
Proof.
  apply (vectors_hold_the_registered_handles Sim.hdr 0%Z [] (Sim.port_limit 1500) ∅ ∅
           1%Z (Sim.final (Sim.port_limit 1500))).
  vm_compute. reflexivity.
Defined.

(** The handles of a full run. *)
Lemma every_call_uses_the_opened_handle_sim :
  Forall (λ e, forall c, client_arg e = Some c -> c = jack_client (Sim.final Sim.good))
    (trace (Sim.final Sim.good)).
Proof.
  apply (every_call_uses_the_opened_handle Sim.hdr 0%Z [] Sim.good ∅ ∅
           0%Z (Sim.final Sim.good)).
  vm_compute. reflexivity.
Defined.

(** A full run: the registration of output-0 is event number 1029. *)
Lemma outputs_are_registered_after_all_inputs_sim :
  length (filter is_input_registered (take 1029 (trace (Sim.final Sim.good))))
  = N.to_nat num_ports.
Proof.
  apply (outputs_are_registered_after_all_inputs Sim.hdr 0%Z [] Sim.good ∅ ∅
           0%Z (Sim.final Sim.good) (take 1029 (trace (Sim.final Sim.good)))
           (Ev_port_register (Some 7) "output-0" "32 bit float mono audio"
              JackPortIsOutput 0 (Some 1025))
           (drop 1030 (trace (Sim.final Sim.good)))).
  - vm_compute. reflexivity.
  - vm_compute. reflexivity.
  - reflexivity.
Defined.

(** A run in which the activation is refused. *)
Lemma at_most_2048_registration_calls_sim :
  (length (filter is_register (trace (Sim.final Sim.no_activation)))
   <= 2 * N.to_nat num_ports)%nat
  /\ (length (filter registration_failed (trace (Sim.final Sim.no_activation))) <= 1)%nat.
Proof.
  apply (at_most_2048_registration_calls Sim.hdr 0%Z [] Sim.no_activation ∅ ∅
           1%Z (Sim.final Sim.no_activation)).
  vm_compute. reflexivity.
Defined.
